(** * Shallow embedding of chronos/ontology.py (Schema, Entity, Ontology)
    and of the dependency-aware Navigator schedule. *)

From Stdlib Require Import List String ZArith QArith Lia Relations ListDec.
Import ListNotations.
Open Scope list_scope.

(** ** Python values and exceptions *)

(** Values stored in the open [meta] mappings. *)
Inductive value : Type :=
| VInt (z : Z)
| VNum (q : Q)
| VStr (s : string).

(** Exceptions raised by the code: [KeyError] (the spec's DuplicateKey and
    NotFound), the Navigator's [CycleError], and whatever a user supplied
    generator raises. *)
Inductive exn : Type :=
| KeyError (msg : string)
| CycleError
| UserException (msg : string).

Inductive Result (A : Type) : Type :=
| Ok (a : A)
| Err (e : exn).
Arguments Ok {A} a.
Arguments Err {A} e.

(** ** Python dicts: insertion-ordered association lists *)
Module Dict.
Section D.
Context {V : Type}.

Fixpoint get (k : string) (d : list (string * V)) : option V :=
      match d with
      | [] => None
      | (k', v) :: t => if String.eqb k k' then Some v else get k t
      end.

Definition mem (k : string) (d : list (string * V)) : bool :=
      match get k d with Some _ => true | None => false end.

    (** [d[k] = v]: an existing key keeps its position, a new key is appended. *)
Fixpoint set (k : string) (v : V) (d : list (string * V)) : list (string * V) :=
      match d with
      | [] => [(k, v)]
      | (k', v') :: t => if String.eqb k k' then (k', v) :: t else (k', v') :: set k v t
      end.

Definition keys (d : list (string * V)) : list string := map fst d.
Definition values (d : list (string * V)) : list V := map snd d.
End D.
End Dict.

(** ** chronos.change_algebra (not in the sources) *)
Module ChangeEvent.
  (** Modelled from the spec: [ChangeEvent] of chronos/change_algebra.py, an
      immutable value with fields [eid], [t0], [dt], [prob], [meta]. *)
Record t : Type := mk {
    eid : string;
    t0 : Q;
    dt : Q;
    prob : Q;
    meta : list (string * value)
  }.
End ChangeEvent.

(** Modelled from the spec: [ChangeSet] of chronos/change_algebra.py, an
    ordered container of events; [add] appends. *)
Definition ChangeSet := list ChangeEvent.t.

Definition ChangeSet_add (cs : ChangeSet) (ev : ChangeEvent.t) : ChangeSet := cs ++ [ev].

(** Modelled from the spec: the truth value of a [ChangeSet | None] as used by
    Python's [or]: [None] is false, a ChangeSet is true exactly when it is
    non-empty ("if the generator returns a non-empty ChangeSet it replaces
    the seeded timeline"). [py_or r cur] is [r or cur]. *)
Definition py_or (r : option ChangeSet) (cur : ChangeSet) : ChangeSet :=
  match r with
  | Some ((_ :: _) as cs) => cs
  | _ => cur
  end.

(** ** Schema (frozen dataclass) *)
Module Schema.
Record t : Type := mk {
    type_id : string;
    mean_period : Q;
    default_dt : Q;
    description : string;
    meta : option (list (string * value))
  }.
End Schema.

(** ** Entity (dataclass). The [generator] field holds a reference to a
    Python callable; its type [G] is a parameter, and calling it is the
    [call] function of the sections below. *)
Module Entity.
Record t (G : Type) : Type := mk {
    eid : string;
    schema : Schema.t;
    goal : ChangeEvent.t;
    timeline : ChangeSet;
    generator : G;
    priority : Z
  }.
Arguments mk {G}.
Arguments eid {G}.
Arguments schema {G}.
Arguments goal {G}.
Arguments timeline {G}.
Arguments generator {G}.
Arguments priority {G}.

Definition set_timeline {G} (e : t G) (tl : ChangeSet) : t G :=
    mk (eid e) (schema e) (goal e) tl (generator e) (priority e).

Section Methods.
Context {G : Type}.
    (** Calling a generator: it may raise, return [None] or a ChangeSet. *)
Variable call : G -> t G -> Result (option ChangeSet).

    (** [self.timeline = self.generator(self) or self.timeline]; when the call
        raises, the assignment does not happen. *)
Definition regenerate (self : t G) : Result (t G) :=
      match call (generator self) self with
      | Err e => Err e
      | Ok r => Ok (set_timeline self (py_or r (timeline self)))
      end.
End Methods.
End Entity.

(** ** Ontology *)
Module Ontology.
Record t (G : Type) : Type := mk {
    _schemas : list (string * Schema.t);
    _entities : list (string * Entity.t G);
    _deps : list (string * list (string * string))
  }.
Arguments mk {G}.
Arguments _schemas {G}.
Arguments _entities {G}.
Arguments _deps {G}.

Definition empty {G} : t G := mk [] [] [].

Section Ops.
Context {G : Type}.
Variable call : G -> Entity.t G -> Result (option ChangeSet).

    (** State-and-exception monad: an exception leaves the state as it was
        when the exception was raised (Python does not roll back). *)
Definition M (A : Type) : Type := t G -> Result A * t G.

Definition ret {A} (a : A) : M A := fun o => (Ok a, o).
Definition raise {A} (e : exn) : M A := fun o => (Err e, o).
Definition bind {A B} (m : M A) (k : A -> M B) : M B :=
      fun o => match m o with
               | (Ok a, o') => k a o'
               | (Err e, o') => (Err e, o')
               end.
Definition get : M (t G) := fun o => (Ok o, o).
Definition put (o : t G) : M unit := fun _ => (Ok tt, o).
Definition lift {A} (r : Result A) : M A := fun o => (r, o).

Notation "x <- m ;; k" := (bind m (fun x => k)) (at level 61, m at next level, right associativity).

Definition add_schema (schema : Schema.t) : M unit :=
      o <- get ;;
      if Dict.mem (Schema.type_id schema) (_schemas o)
      then raise (KeyError ("Schema '" ++ Schema.type_id schema ++ "' already exists")%string)
      else put (mk (Dict.set (Schema.type_id schema) schema (_schemas o)) (_entities o) (_deps o)).

    (** [self._schemas[type_id]]: a missing key raises [KeyError(type_id)]. *)
Definition schema (type_id : string) : M Schema.t :=
      o <- get ;;
      match Dict.get type_id (_schemas o) with
      | Some s => ret s
      | None => raise (KeyError type_id)
      end.

Definition goal_event (entity_id goal_name : string) (t0 : Q) (priority : Z) : ChangeEvent.t :=
      ChangeEvent.mk (entity_id ++ "::goal::" ++ goal_name)%string t0 0 1 [("priority"%string, VInt priority)].

    (** [spawn]. [timeline] is the same object as [ent.timeline], so after
        [timeline.add(goal_ev)] the entity handed to the generator already
        holds the goal event. *)
Definition spawn (entity_id type_id goal_name : string) (generator_fn : G)
        (t0 : Q) (priority : Z) : M (Entity.t G) :=
      o <- get ;;
      if Dict.mem entity_id (_entities o)
      then raise (KeyError ("Entity '" ++ entity_id ++ "' already exists")%string)
      else
        sch <- schema type_id ;;
        let goal_ev := goal_event entity_id goal_name t0 priority in
        let timeline := ChangeSet_add [] goal_ev in
        let ent := Entity.mk entity_id sch goal_ev timeline generator_fn priority in
        r <- lift (call generator_fn ent) ;;
        let timeline := py_or r timeline in
        let ent := Entity.set_timeline ent timeline in
        o <- get ;;
        _ <- put (mk (_schemas o) (Dict.set entity_id ent (_entities o)) (_deps o)) ;;
        ret ent.

Definition entities (o : t G) : list (Entity.t G) := Dict.values (_entities o).

    (** [self._deps[depender][dependee] = kind] on a [defaultdict(dict)]. *)
Definition add_dependency (depender dependee kind : string) : M unit :=
      o <- get ;;
      if negb (Dict.mem depender (_entities o)) || negb (Dict.mem dependee (_entities o))
      then raise (KeyError "Both entities must exist before linking")
      else
        let inner := match Dict.get depender (_deps o) with Some d => d | None => [] end in
        put (mk (_schemas o) (_entities o)
                (Dict.set depender (Dict.set dependee kind inner) (_deps o))).

    (** [list(self._deps.get(eid, {}).items())] *)
Definition dependencies_of (o : t G) (eid : string) : list (string * string) :=
      match Dict.get eid (_deps o) with Some d => d | None => [] end.

Definition hits (eid depender : string) (d : list (string * string)) : list (string * string) :=
      flat_map (fun '(dependee, kind) =>
                  if String.eqb dependee eid then [(depender, kind)] else []) d.

    (** The comprehension over [self._deps.items()] and each [d.items()]. *)
Definition dependents_of (o : t G) (eid : string) : list (string * string) :=
      flat_map (fun '(depender, d) => hits eid depender d) (_deps o).

    (** [Entity.dependencies], [Entity.dependents], [Entity.effective_priority]. *)
Definition dependencies (self : Entity.t G) (ont : t G) := dependencies_of ont (Entity.eid self).
Definition dependents (self : Entity.t G) (ont : t G) := dependents_of ont (Entity.eid self).
Definition effective_priority (self : Entity.t G) (ont : t G) : Z :=
      Entity.priority self + Z.of_nat (List.length (dependents self ont)).
End Ops.
End Ontology.

(** ** Navigator (chronos/navigator.py, not in the sources) *)
Module Navigator.
Section Schedule.
Context {G : Type}.
    (** The InnovationMetric's [score], an external collaborator. *)
Variable score : Entity.t G -> Q.

Definition qmax (a b : Q) : Q := if Qle_bool a b then b else a.
Definition qmin (a b : Q) : Q := if Qle_bool a b then a else b.

    (** Modelled from the spec: an entity is eligible once every entity it
        depends on has been merged. *)
Definition ready (o : Ontology.t G) (done_ : list string) (e : Entity.t G) : bool :=
      forallb (fun '(d, _) => existsb (String.eqb d) done_)
              (Ontology.dependencies_of o (Entity.eid e)).

    (** Modelled from the spec: [x] is merged before [y] when its effective
        priority is higher, or equal with a higher metric score. *)
Definition better (o : Ontology.t G) (x y : Entity.t G) : bool :=
      let px := Ontology.effective_priority x o in
      let py := Ontology.effective_priority y o in
      (py <? px)%Z || ((px =? py)%Z && negb (Qle_bool (score x) (score y))).

    (** Modelled from the spec: the preferred eligible entity. *)
Fixpoint pick (o : Ontology.t G) (l : list (Entity.t G)) : option (Entity.t G) :=
      match l with
      | [] => None
      | x :: t =>
          match pick o t with
          | None => Some x
          | Some y => if better o y x then Some y else Some x
          end
      end.

    (** Modelled from the spec: the topological ordering (step 1). An
        iterative traversal: each round merges one eligible entity; when
        entities remain and none is eligible, the graph has a cycle and
        [CycleError] is raised. The fuel is the number of entities. *)
Fixpoint topo (o : Ontology.t G) (fuel : nat) (remaining : list (Entity.t G))
        (done_ : list string) : Result (list (Entity.t G)) :=
      match remaining with
      | [] => Ok []
      | _ :: _ =>
        match fuel with
        | O => Err CycleError
        | S f =>
          match pick o (filter (ready o done_) remaining) with
          | None => Err CycleError
          | Some e =>
            match topo o f
                    (filter (fun x => negb (String.eqb (Entity.eid x) (Entity.eid e))) remaining)
                    (Entity.eid e :: done_) with
            | Ok rest => Ok (e :: rest)
            | Err x => Err x
            end
          end
        end
      end.

Definition shift (s : Q) (ev : ChangeEvent.t) : ChangeEvent.t :=
      ChangeEvent.mk (ChangeEvent.eid ev) (ChangeEvent.t0 ev + s) (ChangeEvent.dt ev)
                     (ChangeEvent.prob ev) (ChangeEvent.meta ev).

Definition end_time (ev : ChangeEvent.t) : Q := ChangeEvent.t0 ev + ChangeEvent.dt ev.

Definition opt_fold (f : Q -> Q -> Q) (acc : option Q) (q : Q) : option Q :=
      match acc with None => Some q | Some a => Some (f a q) end.

    (** Modelled from the spec: the latest end time of the dependees'
        contributed events, [None] when nothing constrains the entity. *)
Definition ready_time (o : Ontology.t G) (finish : list (string * Q)) (e : Entity.t G) : option Q :=
      fold_left (fun acc '(d, _) =>
                   match Dict.get d finish with
                   | Some f => opt_fold qmax acc f
                   | None => acc
                   end)
                (Ontology.dependencies_of o (Entity.eid e)) None.

Definition earliest (tl : ChangeSet) : option Q :=
      fold_left (fun acc ev => opt_fold qmin acc (ChangeEvent.t0 ev)) tl None.

Definition latest_end (tl : ChangeSet) : option Q :=
      fold_left (fun acc ev => opt_fold qmax acc (end_time ev)) tl None.

    (** Modelled from the spec: step 2 for one entity. Its events are offset
        so that none starts before [ready_time]; when an offset is needed a
        slack event ([t0] the point of resumption, [dt] the gap, [prob] 1)
        precedes them. Returns the contribution and the entity's end time. *)
Definition place (o : Ontology.t G) (finish : list (string * Q)) (e : Entity.t G)
        : list ChangeEvent.t * option Q :=
      let tl := Entity.timeline e in
      let '(s, slack) :=
        match ready_time o finish e, earliest tl with
        | Some r, Some m =>
            if Qle_bool r m then (0, [])
            else (r - m, [ChangeEvent.mk ("slack::" ++ Entity.eid e)%string r (r - m) 1 []])
        | _, _ => (0, [])
        end in
      let contrib := map (shift s) tl in
      (slack ++ contrib, latest_end contrib).

    (** Modelled from the spec: steps 2 and 3, merging in schedule order. *)
Fixpoint merge_from (o : Ontology.t G) (finish : list (string * Q))
        (order : list (Entity.t G)) : ChangeSet :=
      match order with
      | [] => []
      | e :: rest =>
          let '(c, fin) := place o finish e in
          let finish' := match fin with
                         | Some f => (Entity.eid e, f) :: finish
                         | None => finish
                         end in
          c ++ merge_from o finish' rest
      end.

    (** Modelled from the spec: [Navigator.multi_entity_schedule(ontology)]. *)
Definition multi_entity_schedule (o : Ontology.t G) : Result ChangeSet :=
      let ents := Ontology.entities o in
      match topo o (List.length ents) ents [] with
      | Ok order => Ok (merge_from o [] order)
      | Err e => Err e
      end.
End Schedule.
End Navigator.

(** ** The dependency graph as a relation *)
Definition edge {G} (o : Ontology.t G) (a b : string) : Prop :=
  In b (map fst (Ontology.dependencies_of o a)).

Definition cyclic {G} (o : Ontology.t G) : Prop :=
  exists x, clos_trans _ (edge o) x x.

(** Position of the first occurrence of [x] in [l]. *)
Fixpoint index_of (x : string) (l : list string) : nat :=
  match l with
  | [] => O
  | y :: t => if String.eqb x y then O else S (index_of x t)
  end.

(** ** Ontologies reachable through the public operations. [reach_regenerate]
    is [ent.regenerate()] on an entity object held by the ontology's dict. *)
Inductive reachable {G} (call : G -> Entity.t G -> Result (option ChangeSet))
    : Ontology.t G -> Prop :=
| reach_empty : reachable call Ontology.empty
| reach_add_schema o s :
    reachable call o -> reachable call (snd (Ontology.add_schema s o))
| reach_spawn o entity_id type_id goal_name g t0 p :
    reachable call o ->
    reachable call (snd (Ontology.spawn call entity_id type_id goal_name g t0 p o))
| reach_add_dependency o a b k :
    reachable call o -> reachable call (snd (Ontology.add_dependency a b k o))
| reach_regenerate o k e e' :
    reachable call o ->
    Dict.get k (Ontology._entities o) = Some e ->
    Entity.regenerate call e = Ok e' ->
    reachable call (Ontology.mk (Ontology._schemas o) (Dict.set k e' (Ontology._entities o))
                                (Ontology._deps o)).

(** Structural well-formedness of an ontology. *)
Record wf {G} (o : Ontology.t G) : Prop := {
  wf_ent_nodup : NoDup (Dict.keys (Ontology._entities o));
  wf_ent_key : forall k e, In (k, e) (Ontology._entities o) -> Entity.eid e = k;
  wf_inner_nodup : forall a d, In (a, d) (Ontology._deps o) -> NoDup (Dict.keys d);
  wf_endpoints : forall a d b k, In (a, d) (Ontology._deps o) -> In (b, k) d ->
      In a (Dict.keys (Ontology._entities o)) /\ In b (Dict.keys (Ontology._entities o))
}.

(** ** Concrete generators for the worked examples: a generator is named by
    the ChangeSet it returns ([None] for a generator returning [None]). *)
Definition ex_call (g : option ChangeSet) (_ : Entity.t (option ChangeSet))
    : Result (option ChangeSet) := Ok g.

Definition ex_schema : Schema.t := Schema.mk "tea-party" 5 (1#2) "" None.

Definition ex_event (name : string) (dt : Q) : ChangeEvent.t := ChangeEvent.mk name 0 dt 1 [].

Definition ex_base : Ontology.t (option ChangeSet) :=
  snd (Ontology.add_schema ex_schema Ontology.empty).

Definition ex_spawn (eid : string) (g : option ChangeSet) (o : Ontology.t (option ChangeSet)) :=
  snd (Ontology.spawn ex_call eid "tea-party" "goal" g 0 0 o).

Definition ex_two : Ontology.t (option ChangeSet) :=
  ex_spawn "B" (Some [ex_event "b" (1#5)]) (ex_spawn "A" (Some [ex_event "a" (1#2)]) ex_base).

(** The seeded entity handed to the generator. *)
Definition seeded {G : Type} (entity_id goal_name : string) (sch : Schema.t) (g : G) (t0 : Q) (p : Z)
    : Entity.t G :=
  Entity.mk entity_id sch (Ontology.goal_event entity_id goal_name t0 p)
            [Ontology.goal_event entity_id goal_name t0 p] g p.

(** [self._deps.get(k, {})] *)
Definition dget (k : string) (deps : list (string * list (string * string))) :=
  match Dict.get k deps with Some d => d | None => [] end.

(** A walk [w] starting at [x]: consecutive vertices are linked by [E]. *)
Fixpoint chain (E : string -> string -> Prop) (x : string) (w : list string) : Prop :=
  match w with
  | [] => True
  | y :: w' => E x y /\ chain E y w'
  end.

Definition ex_gen_a : option ChangeSet := Some [ex_event "a" (1#2)].

Definition ex_entity : Entity.t (option ChangeSet) :=
  Entity.mk "A"%string ex_schema (ex_event "A::goal::goal" 0) [ex_event "A::goal::goal" 0] None 0.

Definition ex_edge : Ontology.t (option ChangeSet) :=
  snd (Ontology.add_dependency "A" "B" "supports" ex_two).

(** ** Totals over an ontology *)
Definition nsum (l : list nat) : nat := fold_right Nat.add 0%nat l.
Definition zsum (l : list Z) : Z := fold_right Z.add 0%Z l.

(** [sum(e.priority for e in ont.entities())] *)
Definition total_priority {G} (o : Ontology.t G) : Z :=
  zsum (map Entity.priority (Ontology.entities o)).

(** [sum(e.effective_priority(ont) for e in ont.entities())] *)
Definition total_effective_priority {G} (o : Ontology.t G) : Z :=
  zsum (map (fun e => Ontology.effective_priority e o) (Ontology.entities o)).

(** [sum(len(d) for d in ont._deps.values())]: the number of recorded
    (depender, dependee) pairs. *)
Definition edge_count {G} (o : Ontology.t G) : nat :=
  nsum (map (fun p => List.length (snd p)) (Ontology._deps o)).

(** The schema registry: keys are unique, each schema is stored under its
    [type_id], and every entity's schema is a registered one. *)
Record schemas_ok {G} (o : Ontology.t G) : Prop := {
  sch_nodup : NoDup (Dict.keys (Ontology._schemas o));
  sch_key : forall k s, In (k, s) (Ontology._schemas o) -> Schema.type_id s = k;
  sch_ent : forall k e, In (k, e) (Ontology._entities o) ->
      In (Schema.type_id (Entity.schema e), Entity.schema e) (Ontology._schemas o)
}.

Definition ex_whale : Schema.t := Schema.mk "whale" 10 (1#5) "" None.

(** ** Python dict lemmas *)
Module DictFacts.
Section D.
Context {V : Type}.
Implicit Types (d : list (string * V)) (k x : string) (v w : V).

Lemma get_In k v d : Dict.get k d = Some v -> In (k, v) d.
    Proof.
      induction d as [|[k' v'] t IH]; simpl; [discriminate|].
      destruct (String.eqb_spec k k'); intros H; [inversion H; subst; auto | auto].
    Qed.

Lemma get_None k d : Dict.get k d = None <-> ~ In k (Dict.keys d).
    Proof.
      induction d as [|[k' v'] t IH]; simpl; [tauto|].
      destruct (String.eqb_spec k k'); subst.
      - split; [discriminate | intros H; exfalso; auto].
      - rewrite IH. intuition.
    Qed.

Lemma mem_In k d : Dict.mem k d = true <-> In k (Dict.keys d).
    Proof.
      unfold Dict.mem. destruct (Dict.get k d) eqn:E.
      - split; auto. intros _. apply get_In in E. unfold Dict.keys.
        apply in_map_iff. exists (k, v). auto.
      - apply get_None in E. split; [discriminate | tauto].
    Qed.

Lemma In_keys k v d : In (k, v) d -> In k (Dict.keys d).
    Proof. intros H. apply in_map_iff. exists (k, v). auto. Qed.

Lemma keys_set x k v d : In x (Dict.keys (Dict.set k v d)) <-> x = k \/ In x (Dict.keys d).
    Proof.
      induction d as [|[k' v'] t IH]; simpl; [firstorder congruence|].
      destruct (String.eqb_spec k k'); simpl; subst; [firstorder congruence|].
      rewrite IH. tauto.
    Qed.

Lemma In_set x w k v d : In (x, w) (Dict.set k v d) -> (x = k /\ w = v) \/ In (x, w) d.
    Proof.
      induction d as [|[k' v'] t IH]; simpl.
      - intros [H|[]]. inversion H; auto.
      - destruct (String.eqb_spec k k'); simpl; subst.
        + intros [H|H]; [inversion H; auto | auto].
        + intros [H|H]; [auto | destruct (IH H); auto].
    Qed.

Lemma nodup_set k v d : NoDup (Dict.keys d) -> NoDup (Dict.keys (Dict.set k v d)).
    Proof.
      induction d as [|[k' v'] t IH]; simpl; intros H.
      - constructor; [auto | constructor].
      - inversion H as [|? ? Hn Hd]; subst.
        destruct (String.eqb_spec k k'); simpl; subst; constructor; auto.
        rewrite keys_set. intros [E|E]; [congruence | auto].
    Qed.

Lemma get_set_eq k v d : Dict.get k (Dict.set k v d) = Some v.
    Proof.
      induction d as [|[k' v'] t IH]; simpl.
      - rewrite String.eqb_refl. auto.
      - destruct (String.eqb_spec k k'); simpl; subst.
        + rewrite String.eqb_refl. auto.
        + apply String.eqb_neq in n. rewrite n. auto.
    Qed.

Lemma get_set_neq k x v d : x <> k -> Dict.get x (Dict.set k v d) = Dict.get x d.
    Proof.
      intros Hne. induction d as [|[k' v'] t IH]; simpl.
      - apply String.eqb_neq in Hne. rewrite Hne. auto.
      - destruct (String.eqb_spec k k'); simpl; subst.
        + apply String.eqb_neq in Hne. rewrite Hne. auto.
        + rewrite IH. auto.
    Qed.

Lemma get_nodup k v d : NoDup (Dict.keys d) -> In (k, v) d -> Dict.get k d = Some v.
    Proof.
      induction d as [|[k' v'] t IH]; simpl; [tauto|].
      intros Hn [H|H]; inversion Hn; subst.
      - inversion H; subst. rewrite String.eqb_refl. auto.
      - destruct (String.eqb_spec k k'); subst.
        + exfalso. apply H2. eapply In_keys; eauto.
        + auto.
    Qed.
End D.
End DictFacts.

(** ** Unfolding the operations *)
Module OntologyFacts.
Import DictFacts.
Section F.
Context {G : Type}.
Variable call : G -> Entity.t G -> Result (option ChangeSet).

    
Lemma spawn_eq (o : Ontology.t G) entity_id type_id goal_name g t0 p :
      Ontology.spawn call entity_id type_id goal_name g t0 p o =
      if Dict.mem entity_id (Ontology._entities o)
      then (Err (KeyError ("Entity '" ++ entity_id ++ "' already exists")%string), o)
      else match Dict.get type_id (Ontology._schemas o) with
           | None => (Err (KeyError type_id), o)
           | Some sch =>
               let ent0 := seeded entity_id goal_name sch g t0 p in
               match call g ent0 with
               | Err e => (Err e, o)
               | Ok r =>
                   let ent := Entity.set_timeline ent0 (py_or r (Entity.timeline ent0)) in
                   (Ok ent, Ontology.mk (Ontology._schemas o)
                                        (Dict.set entity_id ent (Ontology._entities o))
                                        (Ontology._deps o))
               end
           end.
    Proof.
      unfold Ontology.spawn, Ontology.bind, Ontology.get, Ontology.put, Ontology.ret,
        Ontology.raise, Ontology.lift, Ontology.schema, seeded.
      cbn. destruct (Dict.mem entity_id (Ontology._entities o)); [reflexivity|].
      destruct (Dict.get type_id (Ontology._schemas o)); [|reflexivity].
      cbn. destruct (call _ _); reflexivity.
    Qed.

Lemma add_dependency_eq (o : Ontology.t G) depender dependee kind :
      Ontology.add_dependency depender dependee kind o =
      if negb (Dict.mem depender (Ontology._entities o))
         || negb (Dict.mem dependee (Ontology._entities o))
      then (Err (KeyError "Both entities must exist before linking"), o)
      else (Ok tt, Ontology.mk (Ontology._schemas o) (Ontology._entities o)
                     (Dict.set depender
                        (Dict.set dependee kind (Ontology.dependencies_of o depender))
                        (Ontology._deps o))).
    Proof.
      unfold Ontology.add_dependency, Ontology.bind, Ontology.get, Ontology.put,
        Ontology.raise, Ontology.dependencies_of.
      destruct (_ || _); reflexivity.
    Qed.

Lemma add_schema_frame (o : Ontology.t G) s :
      Ontology._entities (snd (Ontology.add_schema s o)) = Ontology._entities o /\
      Ontology._deps (snd (Ontology.add_schema s o)) = Ontology._deps o.
    Proof.
      unfold Ontology.add_schema, Ontology.bind, Ontology.get, Ontology.put, Ontology.raise.
      destruct (Dict.mem _ _); simpl; auto.
    Qed.

Lemma wf_empty : wf (@Ontology.empty G).
    Proof. constructor; simpl; try tauto. constructor. Qed.

Lemma wf_add_schema (o : Ontology.t G) s : wf o -> wf (snd (Ontology.add_schema s o)).
    Proof.
      intros [W1 W2 W3 W4]. destruct (add_schema_frame o s) as [E D].
      constructor; rewrite ?E, ?D; auto.
    Qed.

Lemma wf_spawn o entity_id type_id goal_name g t0 p :
      wf o -> wf (snd (Ontology.spawn call entity_id type_id goal_name g t0 p o)).
    Proof.
      intros [W1 W2 W3 W4]. rewrite spawn_eq.
      destruct (Dict.mem _ _); [constructor; auto|].
      destruct (Dict.get _ _) as [sch|]; [|constructor; auto].
      cbv zeta. destruct (call _ _) as [r|e]; [|constructor; auto].
      constructor; simpl.
      - apply nodup_set; auto.
      - intros k e H. apply In_set in H as [[-> ->]|H]; [reflexivity | eauto].
      - auto.
      - intros a d b k Ha Hb. rewrite !keys_set. destruct (W4 a d b k Ha Hb); auto.
    Qed.

Lemma wf_add_dependency (o : Ontology.t G) a b k : wf o -> wf (snd (Ontology.add_dependency a b k o)).
    Proof.
      intros [W1 W2 W3 W4]. rewrite add_dependency_eq.
      destruct (Dict.mem a _) eqn:Ea; destruct (Dict.mem b _) eqn:Eb; simpl;
        try (constructor; auto; fail).
      apply mem_In in Ea, Eb.
      constructor; simpl; auto.
      - intros x d H. apply In_set in H as [[-> ->]|H]; [|eauto].
        apply nodup_set. unfold Ontology.dependencies_of.
        destruct (Dict.get a _) eqn:E; [apply get_In in E; eauto | constructor].
      - intros x d y kd Hx Hy. apply In_set in Hx as [[-> ->]|Hx]; [|eauto].
        apply In_set in Hy as [[-> ->]|Hy]; [auto|].
        unfold Ontology.dependencies_of in Hy.
        destruct (Dict.get a _) eqn:E; [apply get_In in E; eauto | destruct Hy].
    Qed.

Lemma regenerate_eid e e' : Entity.regenerate call e = Ok e' -> Entity.eid e' = Entity.eid e.
    Proof.
      unfold Entity.regenerate. destruct (call _ _); intros H; inversion H; reflexivity.
    Qed.

Lemma reachable_wf o : reachable call o -> wf o.
    Proof.
      induction 1 as [|o s _ IH|o ? ? ? ? ? ? _ IH|o ? ? ? _ IH|o k e e' _ [W1 W2 W3 W4] Hg Hr].
      - apply wf_empty.
      - apply wf_add_schema; auto.
      - apply wf_spawn; auto.
      - apply wf_add_dependency; auto.
      - constructor; simpl; auto.
        + apply nodup_set; auto.
        + intros k' x H. apply In_set in H as [[-> ->]|H]; [|eauto].
          rewrite (regenerate_eid _ _ Hr). apply get_In in Hg. eauto.
        + intros a d b kd Ha Hb. rewrite !keys_set. destruct (W4 a d b kd Ha Hb); auto.
    Qed.
End F.
End OntologyFacts.

(** * Claims about [spawn] and [regenerate] *)
Section SpawnClaims.
Import DictFacts OntologyFacts.
Context {G : Type}.
Variable call : G -> Entity.t G -> Result (option ChangeSet).

Lemma set_timeline_same (e : Entity.t G) : Entity.set_timeline e (Entity.timeline e) = e.
  Proof. destruct e; reflexivity. Qed.

  (** C1 (amended): after a successful [spawn] the generator has been called
      on the seeded entity and returned [r]; if [r] is [None] or an empty
      ChangeSet the timeline is exactly the goal event, otherwise the
      timeline is the generator's non-empty ChangeSet, which need not
      contain the goal event. *)
Theorem spawn_timeline_goal_or_generated (o o' : Ontology.t G) entity_id type_id goal_name g t0 p ent :
    Ontology.spawn call entity_id type_id goal_name g t0 p o = (Ok ent, o') ->
    exists r,
      call g (seeded entity_id goal_name (Entity.schema ent) g t0 p) = Ok r /\
      (((r = None \/ r = Some []) /\ Entity.timeline ent = [Entity.goal ent]) \/
       (exists cs, r = Some cs /\ cs <> [] /\ Entity.timeline ent = cs)).
  Proof.
    rewrite spawn_eq. destruct (Dict.mem _ _); [discriminate|].
    destruct (Dict.get _ _) as [sch|]; [|discriminate].
    cbv zeta. destruct (call g _) as [r|e] eqn:Ec; [|discriminate].
    intros H. inversion H; subst; clear H. exists r. simpl. split; [exact Ec|].
    destruct r as [[|ev cs]|]; simpl; auto.
    right. exists (ev :: cs). split; [auto | split; [discriminate | auto]].
  Qed.

  (** C3: [spawn] raises [KeyError("Entity '<id>' already exists")] (the
      spec's DuplicateKey) when [entity_id] is registered; otherwise it raises
      [KeyError(type_id)] (NotFound) when [type_id] is not a registered schema;
      and whenever it raises, including when the generator raises, the
      ontology (schemas, entities, dependencies) is exactly as before. *)
Theorem spawn_failure_no_change (o : Ontology.t G) entity_id type_id goal_name g t0 p :
    (In entity_id (Dict.keys (Ontology._entities o)) ->
     Ontology.spawn call entity_id type_id goal_name g t0 p o =
       (Err (KeyError ("Entity '" ++ entity_id ++ "' already exists")%string), o)) /\
    (~ In entity_id (Dict.keys (Ontology._entities o)) ->
     ~ In type_id (Dict.keys (Ontology._schemas o)) ->
     Ontology.spawn call entity_id type_id goal_name g t0 p o = (Err (KeyError type_id), o)) /\
    (forall e o', Ontology.spawn call entity_id type_id goal_name g t0 p o = (Err e, o') ->
     o' = o /\ Ontology._schemas o' = Ontology._schemas o /\
     Ontology._entities o' = Ontology._entities o /\ Ontology._deps o' = Ontology._deps o).
  Proof.
    rewrite spawn_eq. split; [|split].
    - intros H. apply mem_In in H. rewrite H. reflexivity.
    - intros H1 H2. rewrite <- mem_In in H1. apply not_true_is_false in H1. rewrite H1.
      apply get_None in H2. rewrite H2. reflexivity.
    - intros e o'. destruct (Dict.mem _ _).
      + intros H. inversion H; subst. auto.
      + destruct (Dict.get _ _); [|intros H; inversion H; subst; auto].
        cbv zeta. destruct (call _ _); intros H; inversion H; subst; auto.
  Qed.

  (** C6: the goal event of a spawned entity is exactly
      [{eid: "<entity_id>::goal::<goal_name>", t0, dt: 0, prob: 1, meta:
      {"priority": priority}}], and the generator was invoked on the
      partially built entity whose timeline is exactly that one event; the
      final timeline is [generator(ent) or [goal]]. *)
Theorem spawn_goal_event_and_seed (o o' : Ontology.t G) entity_id type_id goal_name g t0 p ent :
    Ontology.spawn call entity_id type_id goal_name g t0 p o = (Ok ent, o') ->
    Entity.goal ent =
      ChangeEvent.mk (entity_id ++ "::goal::" ++ goal_name)%string t0 0 1
                     [("priority"%string, VInt p)] /\
    exists r,
      call g (Entity.mk entity_id (Entity.schema ent) (Entity.goal ent) [Entity.goal ent] g p) = Ok r /\
      Entity.timeline ent = py_or r [Entity.goal ent].
  Proof.
    rewrite spawn_eq. destruct (Dict.mem _ _); [discriminate|].
    destruct (Dict.get _ _) as [sch|]; [|discriminate].
    cbv zeta. destruct (call g _) as [r|e] eqn:Ec; [|discriminate].
    intros H. inversion H; subst; clear H. simpl. split; [reflexivity|].
    exists r. split; [exact Ec | reflexivity].
  Qed.

  (** C7: a generator returning [None] keeps the current timeline:
      [regenerate] then returns the entity unchanged (same timeline), and
      [spawn] with such a generator keeps the seeded goal-only timeline. *)
Theorem none_generator_keeps_timeline :
    (forall e : Entity.t G, call (Entity.generator e) e = Ok None ->
       Entity.regenerate call e = Ok e /\
       (forall e', Entity.regenerate call e = Ok e' -> Entity.timeline e' = Entity.timeline e)) /\
    (forall (o o' : Ontology.t G) entity_id type_id goal_name g t0 p ent,
       (forall x, call g x = Ok None) ->
       Ontology.spawn call entity_id type_id goal_name g t0 p o = (Ok ent, o') ->
       Entity.timeline ent = [Entity.goal ent]).
  Proof.
    split.
    - intros e He. unfold Entity.regenerate. rewrite He. simpl.
      rewrite set_timeline_same. split; [reflexivity|].
      intros e' H. inversion H; subst. reflexivity.
    - intros o o' entity_id type_id goal_name g t0 p ent Hg. rewrite spawn_eq.
      destruct (Dict.mem _ _); [discriminate|].
      destruct (Dict.get _ _) as [sch|]; [|discriminate].
      cbv zeta. rewrite Hg. intros H. inversion H; subst. reflexivity.
  Qed.

  (** C8: [regenerate] changes only [timeline]: [eid], [schema], [goal],
      [generator] and [priority] are the same after the call. *)
Theorem regenerate_frame (e e' : Entity.t G) :
    Entity.regenerate call e = Ok e' ->
    Entity.eid e' = Entity.eid e /\ Entity.schema e' = Entity.schema e /\
    Entity.goal e' = Entity.goal e /\ Entity.generator e' = Entity.generator e /\
    Entity.priority e' = Entity.priority e.
  Proof.
    unfold Entity.regenerate. destruct (call _ _); intros H; inversion H; subst.
    repeat split.
  Qed.
End SpawnClaims.


(** C1 fails: a generator returning a non-empty ChangeSet without the goal
    event replaces the seeded timeline, and the goal event is lost. *)
Lemma spawn_goal_lost_counterexample :
  exists ent o',
    Ontology.spawn ex_call "A" "tea-party" "goal" ex_gen_a 0 0 ex_base = (Ok ent, o') /\
    ~ In (Entity.goal ent) (Entity.timeline ent).
Proof.
  do 2 eexists. split; [cbv; reflexivity|].
  simpl. intros [H|[]]. inversion H.
Qed.

Lemma spawn_timeline_goal_or_generated_witness :
  exists ent o',
    Ontology.spawn ex_call "A" "tea-party" "goal" ex_gen_a 0 0 ex_base = (Ok ent, o') /\
    exists r,
      ex_call ex_gen_a (seeded "A" "goal" (Entity.schema ent) ex_gen_a 0 0) = Ok r /\
      (((r = None \/ r = Some []) /\ Entity.timeline ent = [Entity.goal ent]) \/
       (exists cs, r = Some cs /\ cs <> [] /\ Entity.timeline ent = cs)).
Proof.
  do 2 eexists. split; [cbv; reflexivity|].
  eapply (spawn_timeline_goal_or_generated ex_call ex_base _ "A" "tea-party" "goal" ex_gen_a 0 0).
  cbv; reflexivity.
Defined.

Lemma spawn_failure_no_change_witness :
  In "A"%string (Dict.keys (Ontology._entities ex_two)) /\
  Ontology.spawn ex_call "A" "tea-party" "goal" None 0 0 ex_two =
    (Err (KeyError "Entity 'A' already exists"), ex_two) /\
  ~ In "A"%string (Dict.keys (Ontology._entities ex_base)) /\
  ~ In "nope"%string (Dict.keys (Ontology._schemas ex_base)) /\
  Ontology.spawn ex_call "A" "nope" "goal" None 0 0 ex_base = (Err (KeyError "nope"), ex_base).
Proof.
  assert (H1 : In "A"%string (Dict.keys (Ontology._entities ex_two))) by (simpl; auto).
  assert (H2 : ~ In "A"%string (Dict.keys (Ontology._entities ex_base))) by (simpl; auto).
  assert (H3 : ~ In "nope"%string (Dict.keys (Ontology._schemas ex_base)))
    by (simpl; intros [H|[]]; inversion H).
  split; [exact H1|]. split.
  { exact (proj1 (spawn_failure_no_change ex_call ex_two "A" "tea-party" "goal" None 0 0) H1). }
  split; [exact H2|]. split; [exact H3|].
  exact (proj1 (proj2 (spawn_failure_no_change ex_call ex_base "A" "nope" "goal" None 0 0)) H2 H3).
Defined.

Lemma spawn_goal_event_and_seed_witness :
  exists ent o',
    Ontology.spawn ex_call "A" "tea-party" "goal" ex_gen_a 0 0 ex_base = (Ok ent, o') /\
    Entity.goal ent = ChangeEvent.mk "A::goal::goal" 0 0 1 [("priority"%string, VInt 0)] /\
    exists r,
      ex_call ex_gen_a (Entity.mk "A"%string (Entity.schema ent) (Entity.goal ent) [Entity.goal ent] ex_gen_a 0) = Ok r /\
      Entity.timeline ent = py_or r [Entity.goal ent].
Proof.
  do 2 eexists. split; [cbv; reflexivity|].
  exact (spawn_goal_event_and_seed ex_call ex_base _ "A" "tea-party" "goal" ex_gen_a 0 0 _ eq_refl).
Defined.


Lemma none_generator_keeps_timeline_witness :
  ex_call (Entity.generator ex_entity) ex_entity = Ok None /\
  Entity.regenerate ex_call ex_entity = Ok ex_entity /\
  exists ent o',
    Ontology.spawn ex_call "A" "tea-party" "goal" None 0 0 ex_base = (Ok ent, o') /\
    Entity.timeline ent = [Entity.goal ent].
Proof.
  split; [reflexivity|]. split.
  { exact (proj1 (proj1 (none_generator_keeps_timeline ex_call) ex_entity eq_refl)). }
  do 2 eexists. split; [cbv; reflexivity|].
  exact (proj2 (none_generator_keeps_timeline ex_call) ex_base _ "A"%string "tea-party"%string "goal"%string None 0 0%Z _
           (fun _ => eq_refl) eq_refl).
Defined.

Lemma regenerate_frame_witness :
  exists e', Entity.regenerate ex_call (Entity.mk "A"%string ex_schema (ex_event "A::goal::goal" 0) []
                                            ex_gen_a 0) = Ok e' /\
    Entity.eid e' = "A"%string /\ Entity.schema e' = ex_schema /\
    Entity.goal e' = ex_event "A::goal::goal" 0 /\ Entity.generator e' = ex_gen_a /\
    Entity.priority e' = 0%Z.
Proof.
  eexists. split; [reflexivity|].
  exact (regenerate_frame ex_call _ _ eq_refl).
Defined.

(** ** Facts about the dependency map *)
Module GraphFacts.
Import DictFacts OntologyFacts.

Lemma set_notin {V} k (v : V) d : ~ In k (Dict.keys d) -> Dict.set k v d = d ++ [(k, v)].
  Proof.
    induction d as [|[k' v'] t IH]; simpl; auto.
    intros H. destruct (String.eqb_spec k k'); [subst; exfalso; auto|].
    rewrite IH; auto.
  Qed.

Lemma In_set_other {V} x (w : V) k v d : x <> k -> In (x, w) d -> In (x, w) (Dict.set k v d).
  Proof.
    intros Hne. induction d as [|[k' v'] t IH]; simpl; [tauto|].
    destruct (String.eqb_spec k k'); simpl; intros [H|H]; auto.
    inversion H; subst; congruence.
  Qed.

Lemma In_set_nodup {V} x (w : V) k v d :
    NoDup (Dict.keys d) -> In (x, w) (Dict.set k v d) ->
    (x = k /\ w = v) \/ (x <> k /\ In (x, w) d).
  Proof.
    induction d as [|[k' v'] t IH]; simpl; intros Hn.
    - intros [H|[]]. inversion H; auto.
    - inversion Hn as [|? ? Hk Ht]; subst.
      destruct (String.eqb_spec k k'); simpl; subst.
      + intros [H|H]; [inversion H; auto|].
        right. split; auto. intros ->. apply Hk. eapply In_keys; eauto.
      + intros [H|H]; [inversion H; subst; auto|].
        destruct (IH Ht H) as [?|[? ?]]; auto.
  Qed.

Lemma nodup_functional {V} b (k1 k2 : V) d :
    NoDup (Dict.keys d) -> In (b, k1) d -> In (b, k2) d -> k1 = k2.
  Proof.
    intros Hn H1 H2. apply (get_nodup _ _ _ Hn) in H1. apply (get_nodup _ _ _ Hn) in H2.
    congruence.
  Qed.

Lemma hits_In x a d dep k :
    In (dep, k) (Ontology.hits x a d) <-> dep = a /\ In (x, k) d.
  Proof.
    unfold Ontology.hits. rewrite in_flat_map. split.
    - intros [[y ky] [Hy Hin]]. destruct (String.eqb_spec y x); subst.
      + destruct Hin as [H|[]]. inversion H; subst. auto.
      + destruct Hin.
    - intros [-> H]. exists (x, k). split; auto. rewrite String.eqb_refl. left; auto.
  Qed.

Lemma dependents_of_In {G} (o : Ontology.t G) x a k :
    In (a, k) (Ontology.dependents_of o x) <->
    exists d, In (a, d) (Ontology._deps o) /\ In (x, k) d.
  Proof.
    unfold Ontology.dependents_of. rewrite in_flat_map. split.
    - intros [[a' d] [Hd Hh]]. apply hits_In in Hh as [-> Hk]. eauto.
    - intros [d [Hd Hk]]. exists (a, d). split; auto. apply hits_In. auto.
  Qed.

Lemma hits_set_new x a k d :
    ~ In x (Dict.keys d) ->
    List.length (Ontology.hits x a (Dict.set x k d)) = S (List.length (Ontology.hits x a d)).
  Proof.
    intros H. rewrite set_notin by auto. unfold Ontology.hits.
    rewrite flat_map_app, length_app. simpl. rewrite String.eqb_refl. simpl. lia.
  Qed.


  (** Replacing the inner dict of one depender changes the incoming count of
      [x] by the difference of that dict's own count. *)
Lemma length_dependents_set x a v deps :
    (List.length (flat_map (fun '(depender, d) => Ontology.hits x depender d) (Dict.set a v deps))
      + List.length (Ontology.hits x a (dget a deps)) =
    List.length (flat_map (fun '(depender, d) => Ontology.hits x depender d) deps)
      + List.length (Ontology.hits x a v))%nat.
  Proof.
    unfold dget. induction deps as [|[k' v'] t IH]; simpl.
    - rewrite app_nil_r. change (Ontology.hits x a []) with (@nil (string * string)).
      simpl. lia.
    - destruct (String.eqb_spec a k'); subst; simpl; rewrite !length_app.
      + lia.
      + lia.
  Qed.

  (** Adding an edge from a depender that has no edge to [x] yet adds exactly
      one entry to [dependents_of x]. *)
Lemma add_dependency_dependents_length {G} (o : Ontology.t G) d x k :
    In d (Dict.keys (Ontology._entities o)) -> In x (Dict.keys (Ontology._entities o)) ->
    (forall k', ~ In (d, k') (Ontology.dependents_of o x)) ->
    fst (Ontology.add_dependency d x k o) = Ok tt /\
    List.length (Ontology.dependents_of (snd (Ontology.add_dependency d x k o)) x) =
      S (List.length (Ontology.dependents_of o x)).
  Proof.
    intros Hd Hx Hnew. rewrite add_dependency_eq.
    apply mem_In in Hd, Hx. rewrite Hd, Hx. simpl. split; [reflexivity|].
    unfold Ontology.dependents_of. simpl.
    pose proof (length_dependents_set x d (Dict.set x k (Ontology.dependencies_of o d))
                  (Ontology._deps o)) as L.
    assert (Hin : ~ In x (Dict.keys (Ontology.dependencies_of o d))).
    { unfold Ontology.dependencies_of. destruct (Dict.get d _) as [inner|] eqn:E; [|simpl; auto].
      intros Hk. apply in_map_iff in Hk as [[x' k'] [Hx' Hk]]. simpl in Hx'. subst x'.
      apply (Hnew k'). apply dependents_of_In. exists inner. split; auto. apply get_In; auto. }
    rewrite hits_set_new in L by auto.
    unfold dget in L. fold (Ontology.dependencies_of o d) in L. lia.
  Qed.
End GraphFacts.

(** * Claims about the dependency graph *)
Section GraphClaims.
Import DictFacts OntologyFacts GraphFacts.
Context {G : Type}.
Variable call : G -> Entity.t G -> Result (option ChangeSet).

  (** C4: [effective_priority(e)] is [e.priority] plus the number of entries
      of [dependents_of(e.eid)] in the ontology it is given; adding an edge
      to [e] from a registered depender that had no edge to [e] increases it
      by exactly 1. *)
Theorem effective_priority_pull (o : Ontology.t G) (e : Entity.t G) :
    Ontology.effective_priority e o =
      (Entity.priority e + Z.of_nat (List.length (Ontology.dependents_of o (Entity.eid e))))%Z /\
    (forall d k,
       In d (Dict.keys (Ontology._entities o)) ->
       In (Entity.eid e) (Dict.keys (Ontology._entities o)) ->
       (forall k', ~ In (d, k') (Ontology.dependents_of o (Entity.eid e))) ->
       fst (Ontology.add_dependency d (Entity.eid e) k o) = Ok tt /\
       Ontology.effective_priority e (snd (Ontology.add_dependency d (Entity.eid e) k o)) =
         (Ontology.effective_priority e o + 1)%Z).
  Proof.
    split; [reflexivity|].
    intros d k Hd He Hnew.
    destruct (add_dependency_dependents_length o d (Entity.eid e) k Hd He Hnew) as [Hok Hlen].
    split; [exact Hok|].
    unfold Ontology.effective_priority, Ontology.dependents. rewrite Hlen. lia.
  Qed.

  (** C5: [add_dependency] raises [KeyError] (NotFound) and leaves the
      ontology unchanged when an endpoint is not a registered entity; when
      both are registered it records [(depender, dependee) -> kind],
      replacing any earlier kind of that pair and leaving every other edge as
      it was; and in every reachable ontology a pair has at most one kind. *)
Theorem add_dependency_spec (o : Ontology.t G) depender dependee kind :
    (~ In depender (Dict.keys (Ontology._entities o)) \/
     ~ In dependee (Dict.keys (Ontology._entities o)) ->
     Ontology.add_dependency depender dependee kind o =
       (Err (KeyError "Both entities must exist before linking"), o)) /\
    (wf o ->
     In depender (Dict.keys (Ontology._entities o)) ->
     In dependee (Dict.keys (Ontology._entities o)) ->
     let o' := snd (Ontology.add_dependency depender dependee kind o) in
     fst (Ontology.add_dependency depender dependee kind o) = Ok tt /\
     (forall b k, In (b, k) (Ontology.dependencies_of o' depender) <->
                  (b = dependee /\ k = kind) \/
                  (b <> dependee /\ In (b, k) (Ontology.dependencies_of o depender))) /\
     (forall a, a <> depender -> Ontology.dependencies_of o' a = Ontology.dependencies_of o a)) /\
    (forall o1 : Ontology.t G, reachable call o1 ->
     forall a b k1 k2, In (b, k1) (Ontology.dependencies_of o1 a) ->
                       In (b, k2) (Ontology.dependencies_of o1 a) -> k1 = k2).
  Proof.
    split; [|split].
    - intros H. rewrite add_dependency_eq.
      destruct H as [H|H]; rewrite <- mem_In in H; apply not_true_is_false in H; rewrite H;
        simpl; [reflexivity|]. rewrite orb_true_r. reflexivity.
    - intros W Hd He o'. subst o'. rewrite add_dependency_eq.
      apply mem_In in Hd, He. rewrite Hd, He. simpl.
      split; [reflexivity|]. split.
      + intros b k. unfold Ontology.dependencies_of at 1. simpl. rewrite get_set_eq.
        assert (Hn : NoDup (Dict.keys (Ontology.dependencies_of o depender))).
        { unfold Ontology.dependencies_of. destruct (Dict.get depender _) eqn:E; [|constructor].
          apply get_In in E. eapply wf_inner_nodup; eauto. }
        split.
        * intros H. apply In_set_nodup in H; auto.
        * intros [[-> ->]|[Hne H]].
          -- apply get_In. apply get_set_eq.
          -- apply In_set_other; auto.
      + intros a Hne. unfold Ontology.dependencies_of. simpl. rewrite get_set_neq; auto.
    - intros o1 R a b k1 k2 H1 H2. apply reachable_wf in R.
      unfold Ontology.dependencies_of in H1, H2.
      destruct (Dict.get a _) eqn:E; [|destruct H1].
      apply get_In in E. eapply nodup_functional; eauto. eapply wf_inner_nodup; eauto.
  Qed.

  (** C9: [dependencies_of] and [dependents_of] are total; they return the
      empty list when [eid] has no outgoing (resp. incoming) edge, and, in a
      reachable ontology, when [eid] is not a registered entity. *)
Theorem dependency_queries_total (o : Ontology.t G) (eid : string) :
    ((forall b, ~ edge o eid b) -> Ontology.dependencies_of o eid = []) /\
    ((forall a d k, In (a, d) (Ontology._deps o) -> ~ In (eid, k) d) ->
     Ontology.dependents_of o eid = []) /\
    (reachable call o -> ~ In eid (Dict.keys (Ontology._entities o)) ->
     Ontology.dependencies_of o eid = [] /\ Ontology.dependents_of o eid = []).
  Proof.
    assert (Hout : (forall b, ~ edge o eid b) -> Ontology.dependencies_of o eid = []).
    { unfold edge. intros H. destruct (Ontology.dependencies_of o eid) as [|[b k] l]; auto.
      exfalso. apply (H b). left. reflexivity. }
    assert (Hin : (forall a d k, In (a, d) (Ontology._deps o) -> ~ In (eid, k) d) ->
                  Ontology.dependents_of o eid = []).
    { intros H. destruct (Ontology.dependents_of o eid) as [|[a k] l] eqn:E; auto.
      exfalso. assert (Ha : In (a, k) (Ontology.dependents_of o eid)) by (rewrite E; left; auto).
      apply dependents_of_In in Ha as [d [Hd Hk]]. exact (H a d k Hd Hk). }
    split; [exact Hout|]. split; [exact Hin|].
    intros R Hx. apply reachable_wf in R. split.
    - apply Hout. unfold edge, Ontology.dependencies_of. intros b Hb.
      destruct (Dict.get eid _) eqn:E; [|destruct Hb].
      apply get_In in E. apply in_map_iff in Hb as [[b' k] [_ Hb]].
      apply Hx. exact (proj1 (wf_endpoints _ R eid l b' k E Hb)).
    - apply Hin. intros a d k Hd Hk. apply Hx. exact (proj2 (wf_endpoints _ R a d eid k Hd Hk)).
  Qed.

  (** C10: a self-loop [add_dependency(e, e, kind)] on a registered entity
      succeeds and puts [(e, kind)] in [dependents_of(e)]; when [e] had no
      dependents before, its effective priority becomes its base priority
      plus 1, the only depender being [e] itself. *)
Theorem self_loop_accepted (o : Ontology.t G) (e : Entity.t G) kind :
    In (Entity.eid e) (Dict.keys (Ontology._entities o)) ->
    let o' := snd (Ontology.add_dependency (Entity.eid e) (Entity.eid e) kind o) in
    fst (Ontology.add_dependency (Entity.eid e) (Entity.eid e) kind o) = Ok tt /\
    In (Entity.eid e, kind) (Ontology.dependents_of o' (Entity.eid e)) /\
    (Ontology.dependents_of o (Entity.eid e) = [] ->
     Ontology.dependents_of o' (Entity.eid e) = [(Entity.eid e, kind)] /\
     Ontology.effective_priority e o' = (Entity.priority e + 1)%Z).
  Proof.
    intros He o'. subst o'.
    assert (Hok : fst (Ontology.add_dependency (Entity.eid e) (Entity.eid e) kind o) = Ok tt).
    { rewrite add_dependency_eq. apply mem_In in He. rewrite He. reflexivity. }
    split; [exact Hok|]. split.
    - apply dependents_of_In. rewrite add_dependency_eq.
      pose proof He as He'. apply mem_In in He'. rewrite He'. simpl.
      eexists. split; apply get_In; apply get_set_eq.
    - intros H0.
      assert (Hnew : forall k', ~ In (Entity.eid e, k') (Ontology.dependents_of o (Entity.eid e)))
        by (rewrite H0; simpl; tauto).
      destruct (add_dependency_dependents_length o _ _ kind He He Hnew) as [_ Hlen].
      rewrite H0 in Hlen. simpl in Hlen.
      assert (Hm : In (Entity.eid e, kind)
                     (Ontology.dependents_of
                        (snd (Ontology.add_dependency (Entity.eid e) (Entity.eid e) kind o))
                        (Entity.eid e))).
      { apply dependents_of_In. rewrite add_dependency_eq.
        pose proof He as He'. apply mem_In in He'. rewrite He'. simpl.
        eexists. split; apply get_In; apply get_set_eq. }
      destruct (Ontology.dependents_of
                  (snd (Ontology.add_dependency (Entity.eid e) (Entity.eid e) kind o))
                  (Entity.eid e)) as [|x [|y l]] eqn:E;
        simpl in Hlen; try discriminate.
      destruct Hm as [Hm|[]]. subst x. split; [reflexivity|].
      unfold Ontology.effective_priority, Ontology.dependents. rewrite E. simpl. lia.
  Qed.
End GraphClaims.

(** ** Worked instances of the graph claims *)
Lemma ex_two_reachable : reachable ex_call ex_two.
Proof.
  unfold ex_two, ex_spawn, ex_base.
  apply reach_spawn. apply reach_spawn. apply reach_add_schema. apply reach_empty.
Qed.


Lemma ex_edge_reachable : reachable ex_call ex_edge.
Proof. apply reach_add_dependency. apply ex_two_reachable. Qed.

Lemma effective_priority_pull_witness :
  In "B"%string (Dict.keys (Ontology._entities ex_two)) /\
  In (Entity.eid ex_entity) (Dict.keys (Ontology._entities ex_two)) /\
  (forall k', ~ In ("B"%string, k') (Ontology.dependents_of ex_two (Entity.eid ex_entity))) /\
  fst (Ontology.add_dependency "B" (Entity.eid ex_entity) "supports" ex_two) = Ok tt /\
  Ontology.effective_priority ex_entity
    (snd (Ontology.add_dependency "B" (Entity.eid ex_entity) "supports" ex_two)) =
    (Ontology.effective_priority ex_entity ex_two + 1)%Z.
Proof.
  assert (H1 : In "B"%string (Dict.keys (Ontology._entities ex_two))) by (simpl; auto).
  assert (H2 : In (Entity.eid ex_entity) (Dict.keys (Ontology._entities ex_two))) by (simpl; auto).
  assert (H3 : forall k', ~ In ("B"%string, k') (Ontology.dependents_of ex_two (Entity.eid ex_entity)))
    by (simpl; tauto).
  split; [exact H1|]. split; [exact H2|]. split; [exact H3|].
  exact (proj2 (effective_priority_pull ex_two ex_entity) "B"%string "supports"%string H1 H2 H3).
Defined.

Lemma add_dependency_spec_witness :
  (~ In "Z"%string (Dict.keys (Ontology._entities ex_two)) /\
   Ontology.add_dependency "Z" "A" "supports" ex_two =
     (Err (KeyError "Both entities must exist before linking"), ex_two)) /\
  (wf ex_two /\ In "A"%string (Dict.keys (Ontology._entities ex_two)) /\
   In "B"%string (Dict.keys (Ontology._entities ex_two)) /\
   fst (Ontology.add_dependency "A" "B" "blocks" ex_two) = Ok tt) /\
  (reachable ex_call ex_edge /\ In ("B"%string, "supports"%string) (Ontology.dependencies_of ex_edge "A") /\
   "supports"%string = "supports"%string).
Proof.
  assert (Hz : ~ In "Z"%string (Dict.keys (Ontology._entities ex_two)))
    by (simpl; intros [H|[H|[]]]; inversion H).
  assert (Hw : wf ex_two) by exact (OntologyFacts.reachable_wf ex_call _ ex_two_reachable).
  assert (Ha : In "A"%string (Dict.keys (Ontology._entities ex_two))) by (simpl; auto).
  assert (Hb : In "B"%string (Dict.keys (Ontology._entities ex_two))) by (simpl; auto).
  assert (He : In ("B"%string, "supports"%string) (Ontology.dependencies_of ex_edge "A"))
    by (simpl; auto).
  split; [split; [exact Hz|]|split].
  - exact (proj1 (add_dependency_spec ex_call ex_two "Z" "A" "supports") (or_introl Hz)).
  - split; [exact Hw|]. split; [exact Ha|]. split; [exact Hb|].
    exact (proj1 (proj1 (proj2 (add_dependency_spec ex_call ex_two "A" "B" "blocks")) Hw Ha Hb)).
  - split; [exact ex_edge_reachable|]. split; [exact He|].
    exact (proj2 (proj2 (add_dependency_spec ex_call ex_two "A" "B" "blocks"))
             ex_edge ex_edge_reachable "A"%string "B"%string _ _ He He).
Defined.

Lemma dependency_queries_total_witness :
  reachable ex_call ex_edge /\ ~ In "Z"%string (Dict.keys (Ontology._entities ex_edge)) /\
  Ontology.dependencies_of ex_edge "Z" = [] /\ Ontology.dependents_of ex_edge "Z" = [] /\
  (forall b, ~ edge ex_edge "B" b) /\ Ontology.dependencies_of ex_edge "B" = [] /\
  (forall a d k, In (a, d) (Ontology._deps ex_edge) -> ~ In ("A"%string, k) d) /\
  Ontology.dependents_of ex_edge "A" = [].
Proof.
  assert (Hz : ~ In "Z"%string (Dict.keys (Ontology._entities ex_edge)))
    by (rewrite <- DictFacts.mem_In; vm_compute; discriminate).
  assert (Hb : forall b, ~ edge ex_edge "B" b) by (unfold edge; vm_compute; tauto).
  assert (Ha : forall a d k, In (a, d) (Ontology._deps ex_edge) -> ~ In ("A"%string, k) d).
  { intros a d k Hd. vm_compute in Hd. destruct Hd as [H|[]]. inversion H; subst.
    simpl. intros [H'|[]]. inversion H'. }
  split; [exact ex_edge_reachable|]. split; [exact Hz|].
  split; [|split; [|split; [exact Hb|split; [|split; [exact Ha|]]]]].
  - exact (proj1 (proj2 (proj2 (dependency_queries_total ex_call ex_edge "Z")) ex_edge_reachable Hz)).
  - exact (proj2 (proj2 (proj2 (dependency_queries_total ex_call ex_edge "Z")) ex_edge_reachable Hz)).
  - exact (proj1 (dependency_queries_total ex_call ex_edge "B") Hb).
  - exact (proj1 (proj2 (dependency_queries_total ex_call ex_edge "A")) Ha).
Defined.

Lemma self_loop_accepted_witness :
  In (Entity.eid ex_entity) (Dict.keys (Ontology._entities ex_two)) /\
  Ontology.dependents_of ex_two (Entity.eid ex_entity) = [] /\
  Ontology.effective_priority ex_entity
    (snd (Ontology.add_dependency (Entity.eid ex_entity) (Entity.eid ex_entity) "supports" ex_two))
    = (Entity.priority ex_entity + 1)%Z.
Proof.
  assert (H1 : In (Entity.eid ex_entity) (Dict.keys (Ontology._entities ex_two))) by (simpl; auto).
  assert (H2 : Ontology.dependents_of ex_two (Entity.eid ex_entity) = []) by reflexivity.
  split; [exact H1|]. split; [exact H2|].
  exact (proj2 (proj2 (proj2 (self_loop_accepted ex_two ex_entity "supports" H1)) H2)).
Defined.

(** ** Facts about the schedule *)
Module ScheduleFacts.
Import DictFacts OntologyFacts GraphFacts.


Lemma chain_reach E x w y : chain E x w -> In y w -> clos_trans _ E x y.
Proof.
  revert x. induction w as [|z w IH]; simpl; [tauto|].
  intros x [Hxz Hc] [->|Hy]; [constructor; auto|].
  eapply t_trans; [constructor; eauto | eauto].
Qed.

Lemma chain_suffix E x w1 y w2 : chain E x (w1 ++ y :: w2) -> chain E y w2.
Proof.
  revert x. induction w1 as [|z w1 IH]; simpl; intros x H; [tauto|].
  destruct H as [_ H]. eauto.
Qed.

(** Every vertex of [S] has a successor in [S]: walks of any length stay in [S]. *)
Lemma long_chain E (S : list string) :
  (forall a, In a S -> exists b, In b S /\ E a b) ->
  forall n x, In x S -> exists w, List.length w = n /\ chain E x w /\ incl w S.
Proof.
  intros Hs n. induction n as [|n IH]; intros x Hx.
  - exists []. simpl. split; [auto|split; [auto|intros ? []]].
  - destruct (Hs x Hx) as [y [Hy Hxy]]. destruct (IH y Hy) as [w [Hl [Hc Hi]]].
    exists (y :: w). simpl. split; [lia|]. split; [auto|].
    intros z [<-|Hz]; auto.
Qed.

(** Pigeonhole: a finite set where every vertex has a successor contains a cycle. *)
Lemma successor_closed_cycle E (S : list string) :
  S <> [] -> (forall a, In a S -> exists b, In b S /\ E a b) ->
  exists x, clos_trans _ E x x.
Proof.
  intros Hne Hs. destruct S as [|x0 S0] eqn:ES; [congruence|]. rewrite <- ES in *.
  assert (Hx0 : In x0 S) by (rewrite ES; left; auto).
  destruct (long_chain E S Hs (List.length S) x0 Hx0) as [w [Hl [Hc Hi]]].
  assert (Hnd : ~ NoDup (x0 :: w)).
  { intros Hn. apply NoDup_incl_length with (l' := S) in Hn.
    - simpl in Hn. lia.
    - intros z [<-|Hz]; auto. }
  apply not_NoDup in Hnd;
    [|intros a b; destruct (String.string_dec a b); [left|right]; auto].
  destruct Hnd as [y [l1 [l2 [l3 Heq]]]].
  exists y. destruct l1 as [|z l1]; simpl in Heq; inversion Heq; subst.
  - eapply chain_reach; eauto. apply in_or_app. right. left. auto.
  - apply chain_suffix in Hc. eapply chain_reach; eauto.
    apply in_or_app. right. left. auto.
Qed.

Lemma filter_length_lt {A} (p : A -> bool) (l : list A) x :
  In x l -> p x = false -> (List.length (filter p l) < List.length l)%nat.
Proof.
  induction l as [|y l IH]; simpl; [tauto|].
  intros [->|H] Hp.
  - rewrite Hp. pose proof (filter_length_le p l) as L. simpl. lia.
  - destruct (p y); simpl; specialize (IH H Hp); lia.
Qed.

(** Entities are determined by their [eid] in a list with distinct eids. *)
Lemma same_eid_same_entity {G} (l : list (Entity.t G)) x y :
  In x l -> In y l -> Entity.eid x = Entity.eid y -> NoDup (map Entity.eid l) -> x = y.
Proof.
  intros Hx Hy Hf Hn. induction l as [|z l IH]; [destruct Hx|].
  apply NoDup_cons_iff in Hn as [Hz Hl].
  destruct Hx as [Ex|Hx], Hy as [Ey|Hy]; subst; auto;
    exfalso; apply Hz; [rewrite Hf | rewrite <- Hf]; apply in_map; assumption.
Qed.

Lemma eids_filter_nodup {G} (keep : Entity.t G -> bool) (R : list (Entity.t G)) :
  NoDup (map Entity.eid R) -> NoDup (map Entity.eid (filter keep R)).
Proof.
  intros H. induction R as [|a l IHl]; [constructor|]. simpl in *.
  apply NoDup_cons_iff in H as [Ha Hl].
  destruct (keep a); [|auto]. simpl. apply NoDup_cons; [|auto].
  intros Hin. apply Ha. apply in_map_iff in Hin as [y [Hy Hf]].
  apply in_map_iff. exists y. rewrite filter_In in Hf. tauto.
Qed.

Section S.
Context {G : Type}.
Variable score : Entity.t G -> Q.

Lemma pick_In (o : Ontology.t G) l e : Navigator.pick score o l = Some e -> In e l.
Proof.
  induction l as [|x l IH]; simpl; [discriminate|].
  destruct (Navigator.pick score o l) as [y|]; [|intros H; inversion H; auto].
  destruct (Navigator.better score o y x); intros H; inversion H; subst; auto.
Qed.

Lemma pick_None (o : Ontology.t G) l : Navigator.pick score o l = None -> l = [].
Proof.
  destruct l as [|x l]; simpl; auto.
  destruct (Navigator.pick score o l); [destruct (Navigator.better _ _ _ _)|]; discriminate.
Qed.

(** Every entity still to be scheduled appears in a successful result. *)
Lemma topo_all (o : Ontology.t G) fuel R done_ out :
  NoDup (map Entity.eid R) ->
  Navigator.topo score o fuel R done_ = Ok out -> incl R out.
Proof.
  revert R done_ out. induction fuel as [|f IH]; intros R done_ out Hn; simpl.
  - destruct R; [intros _ ? []|discriminate].
  - destruct R as [|r R0]; [intros _ ? []|].
    destruct (Navigator.pick score o _) as [e|] eqn:Ep; [|discriminate].
    destruct (Navigator.topo score o f _ _) as [rest|x] eqn:Et; [|discriminate].
    intros H. inversion H; subst out; clear H.
    apply pick_In in Ep. apply filter_In in Ep as [Ep _].
    intros x Hx. destruct (String.eqb_spec (Entity.eid x) (Entity.eid e)) as [Eq|Ne].
    + left. exact (same_eid_same_entity _ _ _ Ep Hx (eq_sym Eq) Hn).
    + right. apply (IH _ _ _ (eids_filter_nodup _ _ Hn) Et).
      apply filter_In. split; auto. apply String.eqb_neq in Ne. rewrite Ne. auto.
Qed.

(** Every entity's dependencies were scheduled before it. *)
Lemma topo_sound (o : Ontology.t G) fuel R done_ out :
  Navigator.topo score o fuel R done_ = Ok out ->
  forall i e, nth_error out i = Some e ->
  forall b, In b (map fst (Ontology.dependencies_of o (Entity.eid e))) ->
  In b done_ \/ In b (firstn i (map Entity.eid out)).
Proof.
  revert R done_ out. induction fuel as [|f IH]; intros R done_ out; simpl.
  - destruct R; [|discriminate]. intros H; inversion H; subst. intros [|i]; discriminate.
  - destruct R as [|r R0]; [intros H; inversion H; subst; intros [|i]; discriminate|].
    destruct (Navigator.pick score o _) as [e|] eqn:Ep; [|discriminate].
    destruct (Navigator.topo score o f _ _) as [rest|x] eqn:Et; [|discriminate].
    intros H. inversion H; subst out; clear H.
    intros [|i] e' Hi b Hb; simpl in Hi.
    + inversion Hi; subst e'. apply pick_In in Ep. apply filter_In in Ep as [_ Hr].
      unfold Navigator.ready in Hr. rewrite forallb_forall in Hr.
      apply in_map_iff in Hb as [[b' k] [Hb' Hin]]. simpl in Hb'. subst b'.
      specialize (Hr _ Hin). simpl in Hr. apply existsb_exists in Hr as [d [Hd Hdb]].
      apply String.eqb_eq in Hdb. subst d. auto.
    + destruct (IH _ _ _ Et i e' Hi b Hb) as [[<-|H]|H]; simpl; auto.
Qed.
End S.
End ScheduleFacts.

Module CycleFacts.
Import DictFacts OntologyFacts GraphFacts ScheduleFacts.

Lemma index_of_nth x l : In x l -> nth_error l (index_of x l) = Some x.
Proof.
  induction l as [|y l IH]; simpl; [tauto|].
  destruct (String.eqb_spec x y); [subst; auto|]. intros [->|H]; [congruence|auto].
Qed.

Lemma index_of_firstn x l i : In x (firstn i l) -> (index_of x l < i)%nat.
Proof.
  revert i. induction l as [|y l IH]; intros [|i]; simpl; try tauto.
  destruct (String.eqb_spec x y); [lia|]. intros [->|H]; [congruence|].
  specialize (IH i H). lia.
Qed.

Lemma forallb_false_exists {A} (f : A -> bool) l :
  forallb f l = false -> exists x, In x l /\ f x = false.
Proof.
  induction l as [|y l IH]; simpl; [discriminate|].
  destruct (f y) eqn:E; simpl; [|intros _; eauto].
  intros H. destruct (IH H) as [x [Hx Hf]]. eauto.
Qed.

Lemma entities_eids {G} (o : Ontology.t G) :
  wf o -> map Entity.eid (Ontology.entities o) = Dict.keys (Ontology._entities o).
Proof.
  intros W. unfold Ontology.entities, Dict.values, Dict.keys. rewrite map_map.
  apply map_ext_in. intros [k e] H. simpl. eapply wf_ent_key; eauto.
Qed.

Lemma key_entity {G} (o : Ontology.t G) k :
  wf o -> In k (Dict.keys (Ontology._entities o)) ->
  exists y, In y (Ontology.entities o) /\ Entity.eid y = k.
Proof.
  intros W Hk. apply in_map_iff in Hk as [[k' y] [Hk Hin]]. simpl in Hk. subst k'.
  exists y. split; [apply in_map_iff; exists (k, y); auto | eapply wf_ent_key; eauto].
Qed.

Lemma edge_endpoints {G} (o : Ontology.t G) a b :
  wf o -> edge o a b ->
  In a (Dict.keys (Ontology._entities o)) /\ In b (Dict.keys (Ontology._entities o)).
Proof.
  intros W H. unfold edge, Ontology.dependencies_of in H.
  destruct (Dict.get a _) as [inner|] eqn:E; [|destruct H].
  apply get_In in E. apply in_map_iff in H as [[b' k] [Hb H]]. simpl in Hb. subst b'.
  eapply wf_endpoints; eauto.
Qed.

Section S.
Context {G : Type}.
Variable score : Entity.t G -> Q.

Lemma topo_err_is_cycle (o : Ontology.t G) fuel R done_ x :
  Navigator.topo score o fuel R done_ = Err x -> x = CycleError.
Proof.
  revert R done_. induction fuel as [|f IH]; intros R done_; simpl.
  - destruct R; intros H; inversion H; auto.
  - destruct R; [discriminate|].
    destruct (Navigator.pick _ _ _); [|intros H; inversion H; auto].
    destruct (Navigator.topo _ _ _ _ _) eqn:E; [discriminate|].
    intros H; inversion H; subst. eauto.
Qed.

(** When the traversal is stuck, the entities left form a cycle. *)
Lemma topo_err_cyclic (o : Ontology.t G) fuel R done_ x :
  wf o -> (List.length R <= fuel)%nat ->
  (forall y, In y (Ontology.entities o) -> In (Entity.eid y) done_ \/ In y R) ->
  Navigator.topo score o fuel R done_ = Err x -> cyclic o.
Proof.
  intros W. revert R done_ x. induction fuel as [|f IH]; intros R done_ x Hlen Hinv; simpl.
  - destruct R; [discriminate|simpl in Hlen; lia].
  - destruct R as [|r R0]; [discriminate|].
    destruct (Navigator.pick score o _) as [e|] eqn:Ep.
    + destruct (Navigator.topo score o f _ _) as [rest|x'] eqn:Et; [discriminate|].
      intros _. eapply (IH _ _ x'); [| |exact Et].
      * pose proof (pick_In _ _ _ _ Ep) as He. apply filter_In in He as [He _].
        assert (Hl := filter_length_lt (fun x => negb (Entity.eid x =? Entity.eid e)%string)
                         (r :: R0) e He).
        cbv beta in Hl. rewrite String.eqb_refl in Hl. specialize (Hl eq_refl).
        lia.
      * intros y Hy. destruct (Hinv y Hy) as [H|H]; [left; right; auto|].
        destruct (String.eqb_spec (Entity.eid y) (Entity.eid e)) as [Eq|Ne].
        -- left. rewrite Eq. left. auto.
        -- right. apply filter_In. split; auto. apply String.eqb_neq in Ne. rewrite Ne. auto.
    + intros _. apply pick_None in Ep.
      apply (successor_closed_cycle (edge o) (map Entity.eid (r :: R0))); [discriminate|].
      intros a Ha. apply in_map_iff in Ha as [r' [<- Hr']].
      assert (Hnr : Navigator.ready o done_ r' = false).
      { destruct (Navigator.ready o done_ r') eqn:E; auto.
        assert (Hf : In r' (filter (Navigator.ready o done_) (r :: R0)))
          by (apply filter_In; auto).
        rewrite Ep in Hf. destruct Hf. }
      apply forallb_false_exists in Hnr as [[d k] [Hdk Hd]].
      assert (Hnd : ~ In d done_).
      { intros Hin. simpl in Hd.
        assert (Ht : existsb (String.eqb d) done_ = true).
        { apply existsb_exists. exists d. split; auto. apply String.eqb_refl. }
        congruence. }
      assert (Hedge : edge o (Entity.eid r') d)
        by (unfold edge; apply in_map_iff; exists (d, k); auto).
      destruct (edge_endpoints o _ _ W Hedge) as [_ Hdkey].
      destruct (key_entity o d W Hdkey) as [y [Hy Hyd]].
      exists d. split; auto. destruct (Hinv y Hy) as [H|H].
      * rewrite Hyd in H. contradiction.
      * rewrite <- Hyd. apply in_map. auto.
Qed.

(** A successful traversal is a topological order, so there is no cycle. *)
Lemma topo_ok_acyclic (o : Ontology.t G) out :
  wf o ->
  Navigator.topo score o (List.length (Ontology.entities o)) (Ontology.entities o) [] = Ok out ->
  ~ cyclic o.
Proof.
  intros W Ht. set (L := map Entity.eid out).
  assert (Hall : incl (Ontology.entities o) out).
  { eapply topo_all; [|exact Ht]. rewrite entities_eids by auto. apply (wf_ent_nodup _ W). }
  assert (Hkey : forall a, In a (Dict.keys (Ontology._entities o)) -> In a L).
  { intros a Ha. destruct (key_entity o a W Ha) as [y [Hy <-]]. apply in_map. auto. }
  assert (Hidx : forall a b, edge o a b -> (index_of b L < index_of a L)%nat).
  { intros a b Hab. destruct (edge_endpoints o a b W Hab) as [Ha _].
    pose proof (index_of_nth a L (Hkey a Ha)) as Hn.
    remember (index_of a L) as i eqn:Hi. unfold L in Hn. rewrite nth_error_map in Hn.
    destruct (nth_error out i) as [e|] eqn:Ee; simpl in Hn; inversion Hn as [Hea].
    destruct (topo_sound score o _ _ _ _ Ht i e Ee b) as [[]|Hb].
    - rewrite Hea. exact Hab.
    - apply index_of_firstn. exact Hb. }
  intros [x Hx].
  assert (Hlt : forall u v, clos_trans _ (edge o) u v -> (index_of v L < index_of u L)%nat).
  { induction 1 as [u v Huv|u v w _ IH1 _ IH2]; [auto | lia]. }
  specialize (Hlt x x Hx). lia.
Qed.

Lemma place_complete (o : Ontology.t G) finish e :
  exists s, 0 <= s /\
    forall ev, In ev (Entity.timeline e) -> In (Navigator.shift s ev) (fst (Navigator.place o finish e)).
Proof.
  unfold Navigator.place.
  destruct (Navigator.ready_time o finish e) as [r|];
    [destruct (Navigator.earliest (Entity.timeline e)) as [m|]|].
  - destruct (Qle_bool r m) eqn:Ele.
    + exists 0. split; [apply Qle_refl|]. intros ev H. simpl. apply in_map. auto.
    + exists (r - m). split.
      * apply Qlt_le_weak. apply (proj1 (Qlt_minus_iff m r)). apply Qnot_le_lt.
        intros Hle. apply Qle_bool_iff in Hle. congruence.
      * intros ev H. simpl. right. apply in_map. auto.
  - exists 0. split; [apply Qle_refl|]. intros ev H. simpl. apply in_map. auto.
  - exists 0. split; [apply Qle_refl|]. intros ev H. simpl. apply in_map. auto.
Qed.

Lemma merge_complete (o : Ontology.t G) order finish e ev :
  In e order -> In ev (Entity.timeline e) ->
  exists s, 0 <= s /\ In (Navigator.shift s ev) (Navigator.merge_from o finish order).
Proof.
  revert finish. induction order as [|e0 order IH]; intros finish; simpl; [tauto|].
  intros He Hev. destruct (Navigator.place o finish e0) as [c fin] eqn:Ep.
  destruct He as [->|He].
  - destruct (place_complete o finish e) as [s [Hs Hin]]. exists s. split; auto.
    apply in_or_app. left. specialize (Hin ev Hev). rewrite Ep in Hin. exact Hin.
  - destruct (IH (match fin with
                   | Some f => (Entity.eid e0, f) :: finish
                   | None => finish
                   end) He Hev) as [s [Hs Hin]].
    exists s. split; auto. apply in_or_app. right. exact Hin.
Qed.
End S.
End CycleFacts.

(** * Claim about the Navigator *)
Section ScheduleClaims.
Import DictFacts OntologyFacts GraphFacts ScheduleFacts CycleFacts.
Context {G : Type}.
Variable call : G -> Entity.t G -> Result (option ChangeSet).
Variable score : Entity.t G -> Q.

Lemma schedule_err_iff (o : Ontology.t G) :
  wf o ->
  (Navigator.multi_entity_schedule score o = Err CycleError <-> cyclic o) /\
  (forall x, Navigator.multi_entity_schedule score o = Err x -> x = CycleError).
Proof.
  intros W. unfold Navigator.multi_entity_schedule.
  destruct (Navigator.topo score o _ _ _) as [out|x] eqn:Et.
  - split; [|discriminate]. split; [discriminate|].
    intros Hc. exfalso. exact (topo_ok_acyclic score o out W Et Hc).
  - pose proof (topo_err_is_cycle score o _ _ _ _ Et) as ->.
    split; [|intros x' H; inversion H; auto]. split; [|reflexivity].
    intros _. eapply (topo_err_cyclic score o); [exact W | apply le_n | | exact Et].
    intros y Hy. right. exact Hy.
Qed.

Lemma two_node_cycle (o : Ontology.t G) a b k1 k2 :
  In a (Dict.keys (Ontology._entities o)) -> In b (Dict.keys (Ontology._entities o)) ->
  cyclic (snd (Ontology.add_dependency b a k2 (snd (Ontology.add_dependency a b k1 o)))).
Proof.
  intros Ha Hb. rewrite (add_dependency_eq (snd (Ontology.add_dependency a b k1 o))).
  rewrite (add_dependency_eq o). apply mem_In in Ha, Hb. rewrite Ha, Hb. simpl.
  rewrite Ha, Hb. simpl.
  set (o1 := Ontology.mk (Ontology._schemas o) (Ontology._entities o)
               (Dict.set a (Dict.set b k1 (Ontology.dependencies_of o a)) (Ontology._deps o))).
  assert (E1 : edge o1 a b).
  { unfold edge, Ontology.dependencies_of, o1. simpl. rewrite get_set_eq.
    apply in_map_iff. exists (b, k1). split; auto. apply get_In. apply get_set_eq. }
  set (o2 := Ontology.mk (Ontology._schemas o1) (Ontology._entities o1)
               (Dict.set b (Dict.set a k2 (Ontology.dependencies_of o1 b)) (Ontology._deps o1))).
  assert (E2 : edge o2 b a).
  { unfold edge, Ontology.dependencies_of at 1, o2. simpl. rewrite get_set_eq.
    apply in_map_iff. exists (a, k2). split; auto. apply get_In. apply get_set_eq. }
  destruct (String.eqb_spec a b) as [->|Ne].
  - exists b. constructor. exact E2.
  - assert (E1' : edge o2 a b).
    { unfold edge, Ontology.dependencies_of at 1, o2. simpl. rewrite get_set_neq by auto.
      exact E1. }
    exists a. eapply t_trans; constructor; eauto.
Qed.

(** C2 (modelled from the spec, the Navigator is not in the sources): on
    every reachable ontology, [multi_entity_schedule] fails exactly when the
    dependency graph has a cycle, and then only with [CycleError]; the
    traversal is iterative and bounded by the number of entities, so it
    always returns; on an acyclic graph it returns a combined timeline
    holding every event of every entity (offset by a non-negative amount);
    and adding the edges A -> B and then B -> A makes it raise [CycleError]. *)
Theorem schedule_cycle_error (o : Ontology.t G) :
  reachable call o ->
  (Navigator.multi_entity_schedule score o = Err CycleError <-> cyclic o) /\
  (forall x, Navigator.multi_entity_schedule score o = Err x -> x = CycleError) /\
  (~ cyclic o ->
   exists tl, Navigator.multi_entity_schedule score o = Ok tl /\
     forall e ev, In e (Ontology.entities o) -> In ev (Entity.timeline e) ->
     exists s, 0 <= s /\ In (Navigator.shift s ev) tl) /\
  (forall a b k1 k2,
     In a (Dict.keys (Ontology._entities o)) -> In b (Dict.keys (Ontology._entities o)) ->
     Navigator.multi_entity_schedule score
       (snd (Ontology.add_dependency b a k2 (snd (Ontology.add_dependency a b k1 o))))
     = Err CycleError).
Proof.
  intros R. pose proof (reachable_wf call o R) as W.
  destruct (schedule_err_iff o W) as [Hiff Hx].
  split; [exact Hiff|]. split; [exact Hx|]. split.
  - intros Hac. destruct (Navigator.multi_entity_schedule score o) as [tl|x] eqn:Es.
    + exists tl. split; [reflexivity|]. intros e ev He Hev.
      unfold Navigator.multi_entity_schedule in Es.
      destruct (Navigator.topo score o _ _ _) as [out|x] eqn:Et; [|discriminate].
      inversion Es; subst tl.
      assert (Hall : incl (Ontology.entities o) out).
      { eapply topo_all; [|exact Et]. rewrite entities_eids by auto. apply (wf_ent_nodup _ W). }
      exact (merge_complete score o out [] e ev (Hall e He) Hev).
    + exfalso. apply Hac. apply Hiff. f_equal. apply Hx. reflexivity.
  - intros a b k1 k2 Ha Hb.
    assert (R2 : reachable call
                   (snd (Ontology.add_dependency b a k2 (snd (Ontology.add_dependency a b k1 o)))))
      by (apply reach_add_dependency; apply reach_add_dependency; exact R).
    apply (proj1 (schedule_err_iff _ (reachable_wf call _ R2))).
    apply two_node_cycle; auto.
Qed.
End ScheduleClaims.

(** ** Worked instance of the Navigator claim *)
Lemma schedule_cycle_error_witness :
  reachable ex_call ex_two /\
  In "A"%string (Dict.keys (Ontology._entities ex_two)) /\
  In "B"%string (Dict.keys (Ontology._entities ex_two)) /\
  Navigator.multi_entity_schedule (fun _ => 0)
    (snd (Ontology.add_dependency "B" "A" "supports"
            (snd (Ontology.add_dependency "A" "B" "supports" ex_two)))) = Err CycleError.
Proof.
  assert (Ha : In "A"%string (Dict.keys (Ontology._entities ex_two))) by (simpl; auto).
  assert (Hb : In "B"%string (Dict.keys (Ontology._entities ex_two))) by (simpl; auto).
  split; [exact ex_two_reachable|]. split; [exact Ha|]. split; [exact Hb|].
  exact (proj2 (proj2 (proj2 (schedule_cycle_error ex_call (fun _ => 0) ex_two ex_two_reachable)))
           "A"%string "B"%string "supports"%string "supports"%string Ha Hb).
Defined.

(** ** Further facts about the ontology operations *)
Module ExtraFacts.
Import DictFacts OntologyFacts GraphFacts CycleFacts.

Lemma set_idem {V} k (v : V) d : Dict.set k v (Dict.set k v d) = Dict.set k v d.
Proof.
  induction d as [|[k' v'] t IH]; simpl.
  - rewrite String.eqb_refl. reflexivity.
  - destruct (String.eqb_spec k k'); simpl.
    + subst k'. rewrite String.eqb_refl. reflexivity.
    + destruct (String.eqb_spec k k'); [contradiction|]. rewrite IH. reflexivity.
Qed.

Lemma keys_set_present {V} k (v : V) d :
  In k (Dict.keys d) -> Dict.keys (Dict.set k v d) = Dict.keys d.
Proof.
  unfold Dict.keys. induction d as [|[k' v'] t IH]; simpl; [tauto|].
  destruct (String.eqb_spec k k'); simpl; [reflexivity|].
  intros [H|H]; [congruence|]. rewrite IH; auto.
Qed.

Lemma mem_cons {V} b k' (v' : V) t :
  Dict.mem b ((k', v') :: t) = if String.eqb b k' then true else Dict.mem b t.
Proof. unfold Dict.mem. simpl. destruct (String.eqb b k'); reflexivity. Qed.

(** [d[b] = k] adds an entry for [x] exactly when [b] is [x] and was absent. *)
Lemma hits_set_count x a b k d :
  List.length (Ontology.hits x a (Dict.set b k d)) =
  (List.length (Ontology.hits x a d) +
   if String.eqb b x && negb (Dict.mem b d) then 1 else 0)%nat.
Proof.
  induction d as [|[k' v'] t IH].
  - unfold Ontology.hits. simpl. destruct (String.eqb b x); simpl; lia.
  - rewrite mem_cons. unfold Ontology.hits in *. simpl.
    destruct (String.eqb_spec b k'); simpl.
    + subst k'. destruct (String.eqb b x); simpl; lia.
    + rewrite !length_app, IH. lia.
Qed.

Lemma hits_notin x a d : ~ In x (Dict.keys d) -> Ontology.hits x a d = [].
Proof.
  unfold Dict.keys, Ontology.hits. induction d as [|[y ky] t IH]; simpl; auto.
  intros H. destruct (String.eqb_spec y x); [subst; exfalso; auto|]. simpl. apply IH. tauto.
Qed.

Lemma hits_shape x a d : NoDup (Dict.keys d) ->
  Ontology.hits x a d = [] \/ exists k, Ontology.hits x a d = [(a, k)].
Proof.
  induction d as [|[y ky] t IH]; intros N; [left; reflexivity|].
  unfold Dict.keys in N. simpl in N. inversion N as [|? ? Hy Nt]; subst.
  change (Ontology.hits x a ((y, ky) :: t))
    with ((if String.eqb y x then [(a, ky)] else []) ++ Ontology.hits x a t).
  destruct (String.eqb_spec y x).
  - subst y. right. exists ky. rewrite hits_notin by exact Hy. reflexivity.
  - simpl. apply IH. exact Nt.
Qed.

Lemma dependents_nodup_gen x (L : list (string * list (string * string))) :
  NoDup (Dict.keys L) -> (forall a d, In (a, d) L -> NoDup (Dict.keys d)) ->
  NoDup (map fst (flat_map (fun '(depender, d) => Ontology.hits x depender d) L)).
Proof.
  induction L as [|[a d] L IH]; intros N Hd; simpl; [constructor|].
  unfold Dict.keys in N. simpl in N. inversion N as [|? ? Ha NL]; subst.
  rewrite map_app.
  assert (IH' := IH NL (fun a' d' H => Hd a' d' (or_intror H))).
  destruct (hits_shape x a d (Hd a d (or_introl eq_refl))) as [->|[k ->]]; simpl; [exact IH'|].
  constructor; [|exact IH'].
  intros Hin. apply in_map_iff in Hin as [[a' k'] [Ha' Hin]]. simpl in Ha'. subst a'.
  apply in_flat_map in Hin as [[a2 d2] [H2 Hh]]. apply hits_In in Hh as [Heq _]. subst a2.
  apply Ha. apply (In_keys a d2 L H2).
Qed.

Lemma zsum_pull {A} (f : A -> Z) (g : A -> nat) l :
  zsum (map (fun x => f x + Z.of_nat (g x))%Z l) = (zsum (map f l) + Z.of_nat (nsum (map g l)))%Z.
Proof.
  unfold zsum, nsum. induction l as [|x l IH]; simpl; [reflexivity|].
  rewrite IH, Nat2Z.inj_add. lia.
Qed.

Lemma nsum_add {A} (f g : A -> nat) l :
  nsum (map (fun x => f x + g x)%nat l) = (nsum (map f l) + nsum (map g l))%nat.
Proof. unfold nsum. induction l as [|x l IH]; simpl; lia. Qed.

Lemma nsum_swap {A B} (f : A -> B -> nat) (K : list A) (L : list B) :
  nsum (map (fun k => nsum (map (f k) L)) K) =
  nsum (map (fun p => nsum (map (fun k => f k p) K)) L).
Proof.
  unfold nsum. induction L as [|p L IH]; simpl.
  - clear. induction K; simpl; auto.
  - rewrite <- IH. clear IH. induction K as [|k K IHK]; simpl; [reflexivity|].
    rewrite IHK. lia.
Qed.

Lemma nsum_eqb_zero b K :
  ~ In b K -> nsum (map (fun k => if String.eqb b k then 1%nat else 0%nat) K) = 0%nat.
Proof.
  unfold nsum. induction K as [|k K IH]; simpl; intros H; [reflexivity|].
  destruct (String.eqb_spec b k); [exfalso; auto|]. simpl. apply IH. tauto.
Qed.

Lemma nsum_eqb_one b K :
  NoDup K -> In b K -> nsum (map (fun k => if String.eqb b k then 1%nat else 0%nat) K) = 1%nat.
Proof.
  induction K as [|k K IH]; intros N H; [destruct H|].
  inversion N as [|? ? Hk NK]; subst.
  change (nsum (map (fun k => if String.eqb b k then 1%nat else 0%nat) (k :: K)))
    with ((if String.eqb b k then 1%nat else 0%nat) + nsum (map (fun k => if String.eqb b k then 1%nat else 0%nat) K))%nat.
  destruct (String.eqb_spec b k) as [->|Ne].
  - rewrite nsum_eqb_zero by exact Hk. reflexivity.
  - destruct H as [->|H]; [congruence|]. rewrite IH; auto.
Qed.

(** Each entry of an inner dict is counted once, under its dependee. *)
Lemma nsum_hits K a d :
  NoDup K -> (forall b, In b (Dict.keys d) -> In b K) ->
  nsum (map (fun k => List.length (Ontology.hits k a d)) K) = List.length d.
Proof.
  intros N. induction d as [|[b kb] t IH]; intros Hd.
  - clear. unfold nsum, Ontology.hits. induction K; simpl; auto.
  - transitivity (nsum (map (fun k => if String.eqb b k then 1%nat else 0%nat) K) +
                  nsum (map (fun k => List.length (Ontology.hits k a t)) K))%nat.
    { rewrite <- nsum_add. f_equal. apply map_ext. intros k.
      unfold Ontology.hits. simpl. destruct (String.eqb b k); reflexivity. }
    rewrite IH by (intros b' Hb'; apply Hd; right; exact Hb').
    rewrite nsum_eqb_one; [reflexivity | exact N | apply Hd; left; reflexivity].
Qed.

Lemma sum_dependents_edges {G} (o : Ontology.t G) :
  wf o ->
  nsum (map (fun k => List.length (Ontology.dependents_of o k)) (Dict.keys (Ontology._entities o)))
  = edge_count o.
Proof.
  intros W. unfold edge_count, Ontology.dependents_of.
  transitivity (nsum (map (fun k => nsum (map (fun p => List.length (Ontology.hits k (fst p) (snd p)))
                                            (Ontology._deps o)))
                          (Dict.keys (Ontology._entities o)))).
  { f_equal. apply map_ext. intros k. generalize (Ontology._deps o) as l.
    induction l as [|[a d] l IH]; simpl; [reflexivity|]. rewrite length_app, IH. reflexivity. }
  etransitivity; [apply (nsum_swap (fun k p => List.length (Ontology.hits k (fst p) (snd p))))|].
  f_equal. apply map_ext_in. intros [a d] H. simpl. apply nsum_hits; [exact (wf_ent_nodup _ W)|].
  intros b Hb. apply in_map_iff in Hb as [[b' kb] [Hb' Hin]]. simpl in Hb'. subst b'.
  exact (proj2 (wf_endpoints _ W a d b kb H Hin)).
Qed.

Lemma add_schema_eq {G} (o : Ontology.t G) s :
  Ontology.add_schema s o =
  if Dict.mem (Schema.type_id s) (Ontology._schemas o)
  then (Err (KeyError ("Schema '" ++ Schema.type_id s ++ "' already exists")%string), o)
  else (Ok tt, Ontology.mk (Dict.set (Schema.type_id s) s (Ontology._schemas o))
                           (Ontology._entities o) (Ontology._deps o)).
Proof.
  unfold Ontology.add_schema, Ontology.bind, Ontology.get, Ontology.put, Ontology.raise.
  destruct (Dict.mem _ _); reflexivity.
Qed.

Lemma schema_eq {G} (o : Ontology.t G) t :
  Ontology.schema t o =
  match Dict.get t (Ontology._schemas o) with
  | Some s => (Ok s, o)
  | None => (Err (KeyError t), o)
  end.
Proof.
  unfold Ontology.schema, Ontology.bind, Ontology.get, Ontology.ret, Ontology.raise. cbn.
  destruct (Dict.get t _); reflexivity.
Qed.

Lemma deps_of_set_self {G} sch ents a v (deps : list (string * list (string * string))) :
  Ontology.dependencies_of (@Ontology.mk G sch ents (Dict.set a v deps)) a = v.
Proof. unfold Ontology.dependencies_of. simpl. rewrite get_set_eq. reflexivity. Qed.

Section R.
Context {G : Type}.
Variable call : G -> Entity.t G -> Result (option ChangeSet).

Lemma reachable_deps_nodup (o : Ontology.t G) :
  reachable call o -> NoDup (Dict.keys (Ontology._deps o)).
Proof.
  induction 1 as [|o s _ IH|o entity_id type_id goal_name g t0 p _ IH|o a b k _ IH|o k e e' _ IH Hg Hr].
  - constructor.
  - rewrite (proj2 (add_schema_frame o s)). exact IH.
  - rewrite spawn_eq. destruct (Dict.mem _ _); [exact IH|].
    destruct (Dict.get _ _); [|exact IH]. cbv zeta. destruct (call _ _); exact IH.
  - rewrite add_dependency_eq. destruct (_ || _); simpl; [exact IH|]. apply nodup_set. exact IH.
  - exact IH.
Qed.

Lemma reachable_schemas_ok (o : Ontology.t G) : reachable call o -> schemas_ok o.
Proof.
  induction 1 as [|o s _ [N K E]|o entity_id type_id goal_name g t0 p _ [N K E]
                  |o a b k _ [N K E]|o k e e' _ [N K E] Hg Hr].
  - constructor; simpl; try tauto. constructor.
  - rewrite add_schema_eq. destruct (Dict.mem _ _) eqn:Em; [constructor; auto|].
    assert (Hn : ~ In (Schema.type_id s) (Dict.keys (Ontology._schemas o))).
    { rewrite <- mem_In. rewrite Em. discriminate. }
    constructor; simpl.
    + apply nodup_set. exact N.
    + intros k' s' H. apply In_set in H as [[-> ->]|H]; [reflexivity|eauto].
    + intros k' e H. rewrite set_notin by exact Hn. apply in_or_app. left. eauto.
  - rewrite spawn_eq. destruct (Dict.mem _ _); [constructor; auto|].
    destruct (Dict.get type_id _) as [sch|] eqn:Eg; [|constructor; auto].
    cbv zeta. destruct (call _ _) as [r|x]; [|constructor; auto].
    constructor; simpl; auto.
    intros k' e H. apply In_set in H as [[-> ->]|H]; [|eauto].
    simpl. apply get_In in Eg. rewrite (K _ _ Eg). exact Eg.
  - rewrite add_dependency_eq. destruct (_ || _); constructor; simpl; auto.
  - constructor; simpl; auto.
    intros k' x H. apply In_set in H as [[-> ->]|H]; [|eauto].
    assert (Hs : Entity.schema e' = Entity.schema e).
    { revert Hr. unfold Entity.regenerate. destruct (call _ _); intros Hr; inversion Hr; reflexivity. }
    rewrite Hs. apply get_In in Hg. eauto.
Qed.
End R.
End ExtraFacts.

(** * Further properties of the ontology code *)
Section ExtraProperties.
Import DictFacts OntologyFacts GraphFacts CycleFacts ExtraFacts.
Context {G : Type}.
Variable call : G -> Entity.t G -> Result (option ChangeSet).

(** X1: [add_schema] refuses a [type_id] that is already registered with
    [KeyError("Schema '<type_id>' already exists")] and leaves the ontology
    unchanged; otherwise it succeeds, [schema(type_id)] then returns the new
    schema, every other [schema] lookup gives the same result as before, and
    the entities and dependencies are untouched. *)
Theorem add_schema_register (o : Ontology.t G) s :
  (In (Schema.type_id s) (Dict.keys (Ontology._schemas o)) ->
   Ontology.add_schema s o =
     (Err (KeyError ("Schema '" ++ Schema.type_id s ++ "' already exists")%string), o)) /\
  (~ In (Schema.type_id s) (Dict.keys (Ontology._schemas o)) ->
   let o' := snd (Ontology.add_schema s o) in
   fst (Ontology.add_schema s o) = Ok tt /\
   Ontology.schema (Schema.type_id s) o' = (Ok s, o') /\
   (forall t, t <> Schema.type_id s -> fst (Ontology.schema t o') = fst (Ontology.schema t o)) /\
   Ontology._entities o' = Ontology._entities o /\ Ontology._deps o' = Ontology._deps o).
Proof.
  rewrite add_schema_eq. split.
  - intros H. apply mem_In in H. rewrite H. reflexivity.
  - intros H o'. subst o'. rewrite <- mem_In in H. apply not_true_is_false in H. rewrite H.
    simpl. split; [reflexivity|]. split.
    + rewrite schema_eq. simpl. rewrite get_set_eq. reflexivity.
    + split; [|split; reflexivity]. intros t Ht. rewrite !schema_eq. simpl.
      rewrite get_set_neq by exact Ht. destruct (Dict.get t _); reflexivity.
Qed.

(** X2: a successful [spawn] appends the new entity at the end of
    [entities()] (insertion order), leaves the schemas and dependencies as
    they were, and returns an entity whose [eid], [generator] and [priority]
    are the arguments and whose [schema] is [self.schema(type_id)]. *)
Theorem spawn_appends_entity (o o' : Ontology.t G) entity_id type_id goal_name g t0 p ent :
  Ontology.spawn call entity_id type_id goal_name g t0 p o = (Ok ent, o') ->
  Ontology.entities o' = Ontology.entities o ++ [ent] /\
  Ontology._schemas o' = Ontology._schemas o /\ Ontology._deps o' = Ontology._deps o /\
  Entity.eid ent = entity_id /\ Ontology.schema type_id o = (Ok (Entity.schema ent), o) /\
  Entity.generator ent = g /\ Entity.priority ent = p.
Proof.
  rewrite spawn_eq. destruct (Dict.mem entity_id _) eqn:Em; [discriminate|].
  destruct (Dict.get type_id _) as [sch|] eqn:Eg; [|discriminate].
  cbv zeta. destruct (call g _) as [r|x]; [|discriminate].
  intros H. inversion H; subst; clear H.
  assert (Hn : ~ In entity_id (Dict.keys (Ontology._entities o))).
  { rewrite <- mem_In. rewrite Em. discriminate. }
  split.
  - unfold Ontology.entities, Dict.values. simpl. rewrite set_notin by exact Hn.
    rewrite map_app. reflexivity.
  - simpl. rewrite schema_eq, Eg. repeat split.
Qed.


(** X4: in an ontology built by the public operations, a freshly spawned
    entity has no dependencies and no dependents, so its effective priority
    is its base priority; and [spawn] changes no entity's effective
    priority. *)
Theorem spawn_fresh_entity_unlinked (o o' : Ontology.t G) entity_id type_id goal_name g t0 p ent :
  reachable call o ->
  Ontology.spawn call entity_id type_id goal_name g t0 p o = (Ok ent, o') ->
  Ontology.dependencies_of o' entity_id = [] /\ Ontology.dependents_of o' entity_id = [] /\
  Ontology.effective_priority ent o' = p /\
  (forall e, Ontology.effective_priority e o' = Ontology.effective_priority e o).
Proof.
  intros R. pose proof (reachable_wf call o R) as W.
  rewrite spawn_eq. destruct (Dict.mem entity_id _) eqn:Em; [discriminate|].
  destruct (Dict.get type_id _) as [sch|]; [|discriminate].
  cbv zeta. destruct (call g _) as [r|x]; [|discriminate].
  intros H. inversion H; subst; clear H.
  assert (Hn : ~ In entity_id (Dict.keys (Ontology._entities o))).
  { rewrite <- mem_In. rewrite Em. discriminate. }
  assert (Hout : Ontology.dependencies_of o entity_id = []).
  { unfold Ontology.dependencies_of. destruct (Dict.get entity_id _) as [d|] eqn:E; [|reflexivity].
    destruct d as [|[b k] d]; [reflexivity|]. exfalso. apply get_In in E.
    apply Hn. exact (proj1 (wf_endpoints _ W entity_id _ b k E (or_introl eq_refl))). }
  assert (Hin : Ontology.dependents_of o entity_id = []).
  { destruct (Ontology.dependents_of o entity_id) as [|[a k] l] eqn:E; [reflexivity|].
    exfalso. assert (Ha : In (a, k) (Ontology.dependents_of o entity_id)) by (rewrite E; left; auto).
    apply dependents_of_In in Ha as [d [Hd Hk]].
    apply Hn. exact (proj2 (wf_endpoints _ W a d entity_id k Hd Hk)). }
  split; [exact Hout|]. split; [exact Hin|]. split.
  - unfold Ontology.effective_priority, Ontology.dependents. simpl.
    change (Ontology.dependents_of _ entity_id) with (Ontology.dependents_of o entity_id).
    rewrite Hin. simpl. lia.
  - intros e. reflexivity.
Qed.

(** X5: [add_dependency] is idempotent: calling it a second time with the
    same arguments gives the same outcome and the same ontology as calling
    it once. *)
Theorem add_dependency_idempotent (o : Ontology.t G) a b k :
  Ontology.add_dependency a b k (snd (Ontology.add_dependency a b k o)) =
  Ontology.add_dependency a b k o.
Proof.
  rewrite (add_dependency_eq o).
  destruct (negb (Dict.mem a (Ontology._entities o)) || negb (Dict.mem b (Ontology._entities o))) eqn:E.
  - simpl. rewrite add_dependency_eq, E. reflexivity.
  - simpl. rewrite add_dependency_eq. simpl. rewrite E.
    rewrite deps_of_set_self, set_idem, set_idem. reflexivity.
Qed.

(** X6: when both entities are registered, [add_dependency] appends a new
    dependee at the end of [dependencies_of(depender)]; re-linking an
    existing dependee keeps the dependees in the same order (a Python dict
    keeps a key's position when its value is replaced). *)
Theorem add_dependency_order (o : Ontology.t G) a b k :
  In a (Dict.keys (Ontology._entities o)) -> In b (Dict.keys (Ontology._entities o)) ->
  let o' := snd (Ontology.add_dependency a b k o) in
  (~ edge o a b -> Ontology.dependencies_of o' a = Ontology.dependencies_of o a ++ [(b, k)]) /\
  (edge o a b -> Dict.keys (Ontology.dependencies_of o' a) = Dict.keys (Ontology.dependencies_of o a)).
Proof.
  intros Ha Hb o'. subst o'. rewrite add_dependency_eq.
  apply mem_In in Ha, Hb. rewrite Ha, Hb. simpl. rewrite deps_of_set_self. split.
  - intros H. apply set_notin. exact H.
  - intros H. apply keys_set_present. exact H.
Qed.

(** X7: [add_dependency(a, b, kind)] changes the effective priority of
    exactly one entity, the dependee [b], and by exactly 1, when it succeeds
    and [a] had no edge to [b] yet; in every other case (a failure,
    re-linking an existing pair, any entity other than [b]) every effective
    priority stays the same. *)
Theorem add_dependency_effective_priority (o : Ontology.t G) a b k (e : Entity.t G) :
  Ontology.effective_priority e (snd (Ontology.add_dependency a b k o)) =
  (Ontology.effective_priority e o +
   if Dict.mem a (Ontology._entities o) && Dict.mem b (Ontology._entities o) &&
      String.eqb (Entity.eid e) b && negb (Dict.mem b (Ontology.dependencies_of o a))
   then 1 else 0)%Z.
Proof.
  rewrite add_dependency_eq.
  unfold Ontology.effective_priority, Ontology.dependents.
  destruct (Dict.mem a _); destruct (Dict.mem b (Ontology._entities o)); simpl; try lia.
  unfold Ontology.dependents_of. simpl.
  pose proof (length_dependents_set (Entity.eid e) a (Dict.set b k (Ontology.dependencies_of o a))
                (Ontology._deps o)) as L.
  rewrite hits_set_count in L. unfold dget in L. fold (Ontology.dependencies_of o a) in L.
  rewrite (String.eqb_sym (Entity.eid e) b).
  destruct (String.eqb b (Entity.eid e)), (Dict.mem b (Ontology.dependencies_of o a));
    simpl in *; lia.
Qed.

(** X8: in an ontology built by the public operations, the two queries are
    mirror images: [(b, kind)] is in [dependencies_of(a)] exactly when
    [(a, kind)] is in [dependents_of(b)]. *)
Theorem dependencies_dependents_dual (o : Ontology.t G) a b k :
  reachable call o ->
  (In (b, k) (Ontology.dependencies_of o a) <-> In (a, k) (Ontology.dependents_of o b)).
Proof.
  intros R. pose proof (reachable_deps_nodup call o R) as N.
  rewrite dependents_of_In. unfold Ontology.dependencies_of. split.
  - destruct (Dict.get a _) as [d|] eqn:E; [|intros []].
    intros H. exists d. split; [apply get_In; exact E | exact H].
  - intros [d [Hd Hb]]. rewrite (get_nodup _ _ _ N Hd). exact Hb.
Qed.

(** X9: in an ontology built by the public operations, [dependents_of(x)]
    lists each depender at most once, so the pull counted by
    [effective_priority] is the number of distinct dependers. *)
Theorem dependents_distinct (o : Ontology.t G) x :
  reachable call o -> NoDup (map fst (Ontology.dependents_of o x)).
Proof.
  intros R. apply dependents_nodup_gen.
  - exact (reachable_deps_nodup call o R).
  - intros a d H. exact (wf_inner_nodup _ (reachable_wf call o R) a d H).
Qed.

(** X10: in an ontology built by the public operations, the effective
    priorities of all entities add up to their base priorities plus the
    number of recorded edges: each edge gives one unit of pull to exactly
    one entity. *)
Theorem total_pull (o : Ontology.t G) :
  reachable call o ->
  total_effective_priority o = (total_priority o + Z.of_nat (edge_count o))%Z.
Proof.
  intros R. pose proof (reachable_wf call o R) as W.
  unfold total_effective_priority, total_priority, Ontology.effective_priority, Ontology.dependents.
  rewrite zsum_pull. rewrite <- (sum_dependents_edges o W).
  rewrite <- (entities_eids o W), map_map. reflexivity.
Qed.

(** X11: in an ontology built by the public operations, no two entities of
    [entities()] share an [eid], and both ends of every recorded edge are the
    [eid] of an entity of [entities()]. *)
Theorem entity_ids_unique (o : Ontology.t G) :
  reachable call o ->
  NoDup (map Entity.eid (Ontology.entities o)) /\
  (forall a b, edge o a b ->
     In a (map Entity.eid (Ontology.entities o)) /\ In b (map Entity.eid (Ontology.entities o))).
Proof.
  intros R. pose proof (reachable_wf call o R) as W. rewrite (entities_eids o W).
  split; [exact (wf_ent_nodup _ W)|]. intros a b H. exact (edge_endpoints o a b W H).
Qed.

(** X12: in an ontology built by the public operations, every entity's
    schema is the registered schema of its type:
    [ont.schema(e.schema.type_id)] succeeds and returns [e.schema]. *)
Theorem entity_schema_registered (o : Ontology.t G) e :
  reachable call o -> In e (Ontology.entities o) ->
  Ontology.schema (Schema.type_id (Entity.schema e)) o = (Ok (Entity.schema e), o).
Proof.
  intros R He. destruct (reachable_schemas_ok call o R) as [N K E].
  unfold Ontology.entities, Dict.values in He.
  apply in_map_iff in He as [[k e'] [He' Hin]]. simpl in He'. subst e'.
  rewrite schema_eq, (get_nodup _ _ _ N (E k e Hin)). reflexivity.
Qed.
End ExtraProperties.

(** ** Worked instances of the further properties *)
Lemma add_schema_register_witness :
  In "tea-party"%string (Dict.keys (Ontology._schemas ex_base)) /\
  Ontology.add_schema ex_schema ex_base =
    (Err (KeyError "Schema 'tea-party' already exists"), ex_base) /\
  ~ In "whale"%string (Dict.keys (Ontology._schemas ex_base)) /\
  Ontology.schema "whale" (snd (Ontology.add_schema ex_whale ex_base)) =
    (Ok ex_whale, snd (Ontology.add_schema ex_whale ex_base)).
Proof.
  assert (H1 : In (Schema.type_id ex_schema) (Dict.keys (Ontology._schemas ex_base))) by (simpl; auto).
  assert (H2 : ~ In (Schema.type_id ex_whale) (Dict.keys (Ontology._schemas ex_base)))
    by (simpl; intros [H|[]]; inversion H).
  split; [exact H1|]. split; [exact (proj1 (add_schema_register ex_base ex_schema) H1)|].
  split; [exact H2|]. exact (proj1 (proj2 (proj2 (add_schema_register ex_base ex_whale) H2))).
Defined.

Lemma spawn_appends_entity_witness :
  exists ent o',
    Ontology.spawn ex_call "C" "tea-party" "goal" None 0 0 ex_edge = (Ok ent, o') /\
    Ontology.entities o' = Ontology.entities ex_edge ++ [ent] /\
    Entity.eid ent = "C"%string.
Proof.
  do 2 eexists. split; [cbv; reflexivity|].
  destruct (spawn_appends_entity ex_call ex_edge _ "C" "tea-party" "goal" None 0 0 _ eq_refl)
    as [H1 [_ [_ [H2 _]]]].
  split; [exact H1 | exact H2].
Defined.


Lemma spawn_fresh_entity_unlinked_witness :
  reachable ex_call ex_edge /\
  exists ent o',
    Ontology.spawn ex_call "C" "tea-party" "goal" None 0 4 ex_edge = (Ok ent, o') /\
    Ontology.dependents_of o' "C" = [] /\ Ontology.effective_priority ent o' = 4%Z.
Proof.
  split; [exact ex_edge_reachable|]. do 2 eexists. split; [cbv; reflexivity|].
  destruct (spawn_fresh_entity_unlinked ex_call ex_edge _ "C" "tea-party" "goal" None 0 4 _
              ex_edge_reachable eq_refl) as [_ [H1 [H2 _]]].
  split; [exact H1 | exact H2].
Defined.

Lemma add_dependency_order_witness :
  In "A"%string (Dict.keys (Ontology._entities ex_two)) /\
  In "B"%string (Dict.keys (Ontology._entities ex_two)) /\
  ~ edge ex_two "A" "B" /\
  Ontology.dependencies_of (snd (Ontology.add_dependency "A" "B" "supports" ex_two)) "A" =
    Ontology.dependencies_of ex_two "A" ++ [("B"%string, "supports"%string)].
Proof.
  assert (Ha : In "A"%string (Dict.keys (Ontology._entities ex_two))) by (simpl; auto).
  assert (Hb : In "B"%string (Dict.keys (Ontology._entities ex_two))) by (simpl; auto).
  assert (Hn : ~ edge ex_two "A" "B") by (unfold edge; vm_compute; tauto).
  split; [exact Ha|]. split; [exact Hb|]. split; [exact Hn|].
  exact (proj1 (add_dependency_order ex_two "A" "B" "supports" Ha Hb) Hn).
Defined.

Lemma dependencies_dependents_dual_witness :
  reachable ex_call ex_edge /\
  In ("A"%string, "supports"%string) (Ontology.dependents_of ex_edge "B").
Proof.
  split; [exact ex_edge_reachable|].
  apply (proj1 (dependencies_dependents_dual ex_call ex_edge "A" "B" "supports" ex_edge_reachable)).
  vm_compute. left. reflexivity.
Defined.

Lemma dependents_distinct_witness :
  reachable ex_call ex_edge /\ NoDup (map fst (Ontology.dependents_of ex_edge "B")).
Proof.
  split; [exact ex_edge_reachable|].
  exact (dependents_distinct ex_call ex_edge "B" ex_edge_reachable).
Defined.

Lemma total_pull_witness :
  reachable ex_call ex_edge /\
  total_effective_priority ex_edge = (total_priority ex_edge + 1)%Z.
Proof.
  split; [exact ex_edge_reachable|].
  exact (total_pull ex_call ex_edge ex_edge_reachable).
Defined.

Lemma entity_ids_unique_witness :
  reachable ex_call ex_edge /\ NoDup (map Entity.eid (Ontology.entities ex_edge)).
Proof.
  split; [exact ex_edge_reachable|].
  exact (proj1 (entity_ids_unique ex_call ex_edge ex_edge_reachable)).
Defined.

Lemma entity_schema_registered_witness :
  reachable ex_call ex_two /\
  exists e, In e (Ontology.entities ex_two) /\ Entity.eid e = "A"%string /\
    Ontology.schema (Schema.type_id (Entity.schema e)) ex_two = (Ok (Entity.schema e), ex_two).
Proof.
  split; [exact ex_two_reachable|]. eexists. split; [cbv; left; reflexivity|].
  split; [reflexivity|].
  apply (entity_schema_registered ex_call ex_two _ ex_two_reachable). cbv. left. reflexivity.
Defined.
